(** * Smart flood node: a shallow embedding of [smartnode.c]

    The sketch samples a YL-83 rain sensor and an HC-SR04 ultrasonic ranger,
    classifies the readings, prints a summary on the serial console and posts
    a JSON record to a collector when the WiFi link is up.

    Data follows the sketch: [int]/[long] are [Z] (the ESP32 has 32-bit
    [int] and [long]), [float] is IEEE binary32 and [double] IEEE binary64,
    both as [spec_float] with the standard library's parametric operations,
    [String] is [string].  Calls into the Arduino core (ADC, GPIO, Serial,
    WiFi, HTTP) are events of a trace; their results come from an
    environment.  A pass of [loop] is followed as it runs to its end, and
    once more with the one way the sketch has of not getting there: a
    new-expression that cannot allocate. *)

From Stdlib Require Import ZArith List String Ascii Bool Lia QArith Qabs Qpower Qfield.
From Stdlib Require Import Floats.SpecFloat.
From Stdlib Require DecimalString.
From Equations Require Import Equations.
Import ListNotations.

Open Scope string_scope.
Open Scope list_scope.
Open Scope Z_scope.

(** ** Floating point formats *)

(** [float]: IEEE 754 binary32. *)
Module Binary32.
Definition prec : Z := 24.
Definition emax : Z := 128.

(** Conversion of an integer, as in [distanceCM < 10] or [return 400]. *)
Definition of_Z (n : Z) : spec_float := binary_normalize prec emax n 0 false.

(** Conversion of a [double], as in the [return] of a [float] function. *)
Definition of_double (x : spec_float) : spec_float :=
    match x with
    | S754_finite s m e => binary_round prec emax s m e
    | _ => x
    end.

Definition ltb (x y : spec_float) : bool := SFltb x y.
Definition leb (x y : spec_float) : bool := SFleb x y.
End Binary32.

(** [double]: IEEE 754 binary64. *)
Module Binary64.
Definition prec : Z := 53.
Definition emax : Z := 1024.

Definition of_Z (n : Z) : spec_float := binary_normalize prec emax n 0 false.
Definition mul (x y : spec_float) : spec_float := SFmul prec emax x y.
Definition div (x y : spec_float) : spec_float := SFdiv prec emax x y.

(** The literal [0.034]: the [double] nearest to 34/1000,
      0x1.16872b020c49cp-5. *)
Definition lit_0_034 : spec_float := S754_finite false 4899916394579100 (-57).

(** The literal [2.0]. *)
Definition lit_2_0 : spec_float := S754_finite false 4503599627370496 (-51).
End Binary64.

(** The rational value of a finite float; [None] for infinities and NaN. *)
Definition float_value (f : spec_float) : option Q :=
  match f with
  | S754_zero _ => Some 0%Q
  | S754_finite s m e =>
      Some ((if s then -1 else 1) * inject_Z (Z.pos m) * Qpower 2 e)%Q
  | _ => None
  end.

(** The value of a [float] counted in units of 2^-149, the smallest positive
    binary32 number; 0 for infinities and NaN. *)
Definition units (f : spec_float) : Z :=
  match f with
  | S754_finite s m e => (if s then -1 else 1) * (Z.pos m * 2 ^ (e + 149))
  | _ => 0
  end.

(** ** Integer types of the target *)

(** Value of an [unsigned long] stored into a [long] (two's complement,
    32 bits). *)
Definition long_of_unsigned (u : Z) : Z :=
  let m := u mod 2 ^ 32 in
  if m <? 2 ^ 31 then m else m - 2 ^ 32.

(** ** Classification (the two ladders of [loop]) *)

(** Lines 88-97: the rain intensity ladder. *)
Definition rain_intensity_of (rainAnalog : Z) : string :=
  if rainAnalog >? 3600 then "NO RAIN"
  else if rainAnalog >? 3000 then "LIGHT RAIN"
  else if rainAnalog >? 2400 then "MODERATE RAIN"
  else if rainAnalog >? 1800 then "HEAVY RAIN"
  else "TORRENTIAL RAIN".

(** Lines 100-107: the flood ladder.  [&&] is C's short-circuit conjunction of
    two pure comparisons; the integer constants are converted to [float]. *)
Definition flood_status_of (rainAnalog : Z) (distanceCM : spec_float) : string :=
  if (rainAnalog <? 2400) && Binary32.ltb distanceCM (Binary32.of_Z 10)
  then "CRITICAL FLOOD"
  else if (rainAnalog <? 2400) && Binary32.ltb distanceCM (Binary32.of_Z 20)
  then "FLOOD RISK"
  else if rainAnalog <? 2400
  then "RAIN ALERT"
  else "NORMAL".

(** A ladder of guarded branches read top-down, the first guard that holds
    selecting the label; used to state the priority order of the source's
    [if]/[else if] chains. *)
Fixpoint first_match (branches : list (bool * string)) (default : string) : string :=
  match branches with
  | [] => default
  | (guard, label) :: rest => if guard then label else first_match rest default
  end.

(** The labels the two ladders can produce. *)
Definition intensity_labels : list string :=
  ["NO RAIN"; "LIGHT RAIN"; "MODERATE RAIN"; "HEAVY RAIN"; "TORRENTIAL RAIN"].

Definition flood_labels : list string :=
  ["CRITICAL FLOOD"; "FLOOD RISK"; "RAIN ALERT"; "NORMAL"].

(** ** Constants of the sketch *)

Definition RAIN_AO : Z := 34.
Definition RAIN_DO : Z := 5.
Definition TRIG : Z := 25.
Definition ECHO : Z := 33.

Definition ssid : string := "YOUR_WIFI_NAME".
Definition password : string := "YOUR_WIFI_PASSWORD".
Definition serverUrl : string :=
  "https://floodnode-production.up.railway.app/api/sensor-data".
Definition nodeID : string := "floodnode_01".

(** The escaped characters of the C literals: line feed and double quote. *)
Definition LF : string := String (ascii_of_nat 10) EmptyString.
Definition DQ : string := String (ascii_of_nat 34) EmptyString.

(** ** The Arduino core as seen by the sketch *)

(** [wl_status_t] of the WiFi library.  The sketch only ever compares a
    status with [WL_CONNECTED]. *)
Inductive wl_status_t : Type :=
| WL_NO_SHIELD
| WL_IDLE_STATUS
| WL_NO_SSID_AVAIL
| WL_SCAN_COMPLETED
| WL_CONNECTED
| WL_CONNECT_FAILED
| WL_CONNECTION_LOST
| WL_DISCONNECTED.

Definition wl_status_eq_dec (a b : wl_status_t) : {a = b} + {a <> b}.
Proof. decide equality. Defined.

(** Argument of [Serial.print] / [Serial.println], by overload. *)
Inductive serial_arg : Type :=
| SStr (s : string)
| SInt (n : Z)
| SFloat (f : spec_float).

(** One call into the core, with the value it returned where it returns
    one. *)
Inductive event : Type :=
| EvAnalogRead (pin : Z) (value : Z)
| EvDigitalWrite (pin : Z) (high : bool)
| EvDelayMicroseconds (us : Z)
| EvPulseIn (pin : Z) (high : bool) (timeout : Z) (value : Z)
| EvPrint (a : serial_arg)
| EvPrintln (a : serial_arg)
| EvDelay (ms : Z)
| EvWiFiStatus (st : wl_status_t)
| EvWiFiDisconnect
| EvWiFiBegin (name pass : string)
| EvNewClient (allocated : bool)
| EvSetInsecure
| EvHttpBegin (url : string)
| EvHttpAddHeader (name value : string)
| EvHttpPOST (payload : string) (code : Z)
| EvHttpEnd
| EvDeleteClient.

(** What the outside world answers.  Each stream is indexed by the number of
    earlier calls of the same kind, so a status may change between any two
    polls. *)
Record Env : Type := {
  adc : nat -> Z;                     (* analogRead *)
  echo : nat -> Z;                    (* pulseIn, an unsigned long; 0 = timeout *)
  link : nat -> wl_status_t;          (* WiFi.status() *)
  heap : nat -> bool;                 (* new WiFiClientSecure: memory left? *)
  collector : nat -> Z;               (* return code of http.POST *)
  String_of_float : spec_float -> string   (* String(float) of the core *)
}.

(** The globals of the sketch. *)
Record Globals : Type := {
  duration : Z;
  distanceCM : spec_float;
  rainAnalog : Z;
  rainIntensity : string;
  floodStatus : string
}.

(** How many answers of each stream have been consumed. *)
Record Cursors : Type := {
  n_adc : nat;
  n_echo : nat;
  n_link : nat;
  n_heap : nat;
  n_post : nat
}.

Record Node : Type := {
  globals : Globals;
  cursors : Cursors;
  trace : list event      (* oldest first *)
}.

Definition set_duration (v : Z) (g : Globals) : Globals :=
  {| duration := v; distanceCM := distanceCM g; rainAnalog := rainAnalog g;
     rainIntensity := rainIntensity g; floodStatus := floodStatus g |}.
Definition set_distanceCM (v : spec_float) (g : Globals) : Globals :=
  {| duration := duration g; distanceCM := v; rainAnalog := rainAnalog g;
     rainIntensity := rainIntensity g; floodStatus := floodStatus g |}.
Definition set_rainAnalog (v : Z) (g : Globals) : Globals :=
  {| duration := duration g; distanceCM := distanceCM g; rainAnalog := v;
     rainIntensity := rainIntensity g; floodStatus := floodStatus g |}.
Definition set_rainIntensity (v : string) (g : Globals) : Globals :=
  {| duration := duration g; distanceCM := distanceCM g; rainAnalog := rainAnalog g;
     rainIntensity := v; floodStatus := floodStatus g |}.
Definition set_floodStatus (v : string) (g : Globals) : Globals :=
  {| duration := duration g; distanceCM := distanceCM g; rainAnalog := rainAnalog g;
     rainIntensity := rainIntensity g; floodStatus := v |}.

Definition next_adc (c : Cursors) : Cursors :=
  {| n_adc := S (n_adc c); n_echo := n_echo c; n_link := n_link c;
     n_heap := n_heap c; n_post := n_post c |}.
Definition next_echo (c : Cursors) : Cursors :=
  {| n_adc := n_adc c; n_echo := S (n_echo c); n_link := n_link c;
     n_heap := n_heap c; n_post := n_post c |}.
Definition next_link (c : Cursors) : Cursors :=
  {| n_adc := n_adc c; n_echo := n_echo c; n_link := S (n_link c);
     n_heap := n_heap c; n_post := n_post c |}.
Definition next_heap (c : Cursors) : Cursors :=
  {| n_adc := n_adc c; n_echo := n_echo c; n_link := n_link c;
     n_heap := S (n_heap c); n_post := n_post c |}.
Definition next_post (c : Cursors) : Cursors :=
  {| n_adc := n_adc c; n_echo := n_echo c; n_link := n_link c;
     n_heap := n_heap c; n_post := S (n_post c) |}.

(** ** A reader/state monad for the sketch's procedures *)

Definition M (A : Type) : Type := Env -> Node -> A * Node.

Definition ret {A : Type} (a : A) : M A := fun _ w => (a, w).

Definition bind {A B : Type} (m : M A) (k : A -> M B) : M B :=
  fun env w => let (a, w') := m env w in k a env w'.

Declare Scope node_scope.
Delimit Scope node_scope with node.
Notation "x <- m ;; k" := (bind m (fun x => k))
  (at level 61, m at next level, right associativity) : node_scope.
Notation "m ;; k" := (bind m (fun _ => k))
  (at level 61, right associativity) : node_scope.

(** Final state of a procedure that returns nothing interesting. *)
Definition exec {A : Type} (m : M A) (env : Env) (w : Node) : Node :=
  snd (m env w).

Definition read_globals : M Globals := fun _ w => (globals w, w).

Definition write_globals (f : Globals -> Globals) : M unit :=
  fun _ w => (tt, {| globals := f (globals w); cursors := cursors w; trace := trace w |}).

(** A call that returns nothing. *)
Definition call (e : event) : M unit :=
  fun _ w => (tt, {| globals := globals w; cursors := cursors w; trace := trace w ++ [e] |}).

(** A call that returns the next answer of one of the environment's
    streams. *)
Definition ask {A : Type} (answer : Env -> Cursors -> A) (next : Cursors -> Cursors)
    (e : A -> event) : M A :=
  fun env w =>
    let a := answer env (cursors w) in
    (a, {| globals := globals w; cursors := next (cursors w); trace := trace w ++ [e a] |}).

Definition analogRead (pin : Z) : M Z :=
  ask (fun env c => adc env (n_adc c)) next_adc (EvAnalogRead pin).
Definition pulseIn (pin : Z) (high : bool) (timeout : Z) : M Z :=
  ask (fun env c => echo env (n_echo c)) next_echo (EvPulseIn pin high timeout).
Definition WiFi_status : M wl_status_t :=
  ask (fun env c => link env (n_link c)) next_link EvWiFiStatus.

(** [new WiFiClientSecure] (line 132) is a plain new-expression: when it
    returns, the pointer is not null.  An allocation that fails does not
    return: it throws [std::bad_alloc], or the core aborts where exceptions
    are off, and the run leaves [loop].  [M] follows the passes in which the
    allocation returns; [loop_or_leave] below also follows the others. *)
Definition new_WiFiClientSecure : M bool :=
  ask (fun _ _ => true) next_heap EvNewClient.

Definition http_POST (payload : string) : M Z :=
  ask (fun env c => collector env (n_post c)) next_post (EvHttpPOST payload).

Definition digitalWrite (pin : Z) (high : bool) : M unit := call (EvDigitalWrite pin high).
Definition delayMicroseconds (us : Z) : M unit := call (EvDelayMicroseconds us).
Definition delay (ms : Z) : M unit := call (EvDelay ms).
Definition Serial_print (a : serial_arg) : M unit := call (EvPrint a).
Definition Serial_println (a : serial_arg) : M unit := call (EvPrintln a).
Definition WiFi_disconnect : M unit := call EvWiFiDisconnect.
Definition WiFi_begin (name pass : string) : M unit := call (EvWiFiBegin name pass).
Definition client_setInsecure : M unit := call EvSetInsecure.
Definition http_begin (url : string) : M unit := call (EvHttpBegin url).
Definition http_addHeader (name value : string) : M unit := call (EvHttpAddHeader name value).
Definition http_end : M unit := call EvHttpEnd.
Definition delete_client : M unit := call EvDeleteClient.

(** [String(int)]: the decimal numeral. *)
Definition String_of_int (n : Z) : string :=
  DecimalString.NilZero.string_of_int (Z.to_int n).

(** ** The procedures of the sketch *)

Local Open Scope node_scope.

(** Lines 76-78 of [getUltrasonic]: the distance for a measured pulse width.
    [duration * 0.034] and the division by [2.0] are [double] operations on
    the converted [long]; the result is converted to [float] on return. *)
Definition distance_of_duration (duration : Z) : spec_float :=
  if duration =? 0 then Binary32.of_Z 400
  else
    Binary32.of_double
      (Binary64.div
         (Binary64.mul (Binary64.of_Z duration) Binary64.lit_0_034)
         Binary64.lit_2_0).

(** Lines 67-79. *)
Definition getUltrasonic : M spec_float :=
  digitalWrite TRIG false ;;
  delayMicroseconds 5 ;;
  digitalWrite TRIG true ;;
  delayMicroseconds 10 ;;
  digitalWrite TRIG false ;;
  u <- pulseIn ECHO true 30000 ;;
  write_globals (set_duration (long_of_unsigned u)) ;;
  g <- read_globals ;;
  ret (distance_of_duration (duration g)).

(** Iterations the polling loop of [checkWiFi] may still make. *)
Definition attempts_left (attempts : Z) : nat := Z.to_nat (20 - attempts).
Arguments attempts_left : simpl never.

(** Lines 53-57: the polling loop of [checkWiFi], started with the current
    value of the local [attempts]; returns its final value.  The status is
    polled before [attempts < 20] is tested, as [&&] orders them. *)
Equations? reconnect_wait (attempts : Z) (env : Env) (w : Node) : Z * Node
  by wf (attempts_left attempts) lt :=
reconnect_wait attempts env w with WiFi_status env w => {
  | (st, w1) with wl_status_eq_dec st WL_CONNECTED => {
    | left _ => (attempts, w1)
    | right _ with Z_lt_dec attempts 20 => {
      | left Hlt =>
          reconnect_wait (attempts + 1) env
            (exec (delay 500 ;; Serial_print (SStr ".")) env w1)
      | right _ => (attempts, w1) } } }.
Proof. unfold attempts_left. lia. Qed.

(** Lines 47-64. *)
Definition checkWiFi : M unit :=
  st <- WiFi_status ;;
  if wl_status_eq_dec st WL_CONNECTED then ret tt
  else
    Serial_println (SStr "WiFi lost. Reconnecting...") ;;
    WiFi_disconnect ;;
    WiFi_begin ssid password ;;
    _ <- reconnect_wait 0 ;;
    st' <- WiFi_status ;;
    if wl_status_eq_dec st' WL_CONNECTED
    then Serial_println (SStr (LF ++ "Reconnected!"))
    else Serial_println (SStr (LF ++ "Reconnection failed.")).

(** Line 140: the request body. *)
Definition payload_of (env : Env) (g : Globals) : string :=
  ("{" ++ DQ ++ "node_id" ++ DQ ++ ":" ++ DQ ++ nodeID
   ++ DQ ++ "," ++ DQ ++ "rain_analog" ++ DQ ++ ":" ++ String_of_int (rainAnalog g)
   ++ "," ++ DQ ++ "rain_intensity" ++ DQ ++ ":" ++ DQ ++ rainIntensity g
   ++ DQ ++ "," ++ DQ ++ "water_distance_cm" ++ DQ ++ ":" ++ String_of_float env (distanceCM g)
   ++ "," ++ DQ ++ "flood_status" ++ DQ ++ ":" ++ DQ ++ floodStatus g
   ++ DQ ++ "}")%string.

(** Lines 84-126 of [loop]: read the sensors, classify, print the summary. *)
Definition loop_sample : M unit :=
  r <- analogRead RAIN_AO ;;
  write_globals (set_rainAnalog r) ;;
  d <- getUltrasonic ;;
  write_globals (set_distanceCM d) ;;
  g <- read_globals ;;
  write_globals (set_rainIntensity (rain_intensity_of (rainAnalog g))) ;;
  g <- read_globals ;;
  write_globals (set_floodStatus (flood_status_of (rainAnalog g) (distanceCM g))) ;;
  g <- read_globals ;;
  Serial_println (SStr (LF ++ "==============================")) ;;
  Serial_println (SStr "SMART URBAN FLOOD NODE") ;;
  Serial_print (SStr "Rain Sensor: ") ;;
  Serial_println (SInt (rainAnalog g)) ;;
  Serial_print (SStr "Rain Intensity: ") ;;
  Serial_println (SStr (rainIntensity g)) ;;
  Serial_print (SStr "Water Distance: ") ;;
  Serial_print (SFloat (distanceCM g)) ;;
  Serial_println (SStr " cm") ;;
  Serial_print (SStr "Flood Status: ") ;;
  Serial_println (SStr (floodStatus g)) ;;
  Serial_println (SStr "==============================").

(** Lines 131-150 of [loop]: post the record when the link is up. *)
Definition loop_send : M unit :=
  st <- WiFi_status ;;
  if wl_status_eq_dec st WL_CONNECTED then
    client <- new_WiFiClientSecure ;;
    if client then
      client_setInsecure ;;
      http_begin serverUrl ;;
      http_addHeader "Content-Type" "application/json" ;;
      g <- read_globals ;;
      httpResponseCode <- (fun env => http_POST (payload_of env g) env) ;;
      Serial_print (SStr "HTTP Response: ") ;;
      Serial_println (SInt httpResponseCode) ;;
      http_end ;;
      delete_client
    else ret tt
  else ret tt.

(** Lines 81-153: one pass of [loop]. *)
Definition loop : M unit :=
  loop_sample ;;
  checkWiFi ;;
  loop_send ;;
  delay 4000.

Local Close Scope node_scope.

(** ** Passes cut short by a failed allocation *)

(** How a procedure ends: it returns, or the run leaves [loop] at a
    new-expression that could not allocate. *)
Inductive ending (A : Type) : Type :=
| Returns (a : A)
| Leaves.
Arguments Returns {A} a.
Arguments Leaves {A}.

Definition X (A : Type) : Type := Env -> Node -> ending A * Node.

Definition retX {A : Type} (a : A) : X A := fun _ w => (Returns a, w).

Definition bindX {A B : Type} (m : X A) (k : A -> X B) : X B :=
  fun env w =>
    match m env w with
    | (Returns a, w') => k a env w'
    | (Leaves, w') => (Leaves, w')
    end.

(** A procedure that cannot fail to return. *)
Definition lift {A : Type} (m : M A) : X A :=
  fun env w => let (a, w') := m env w in (Returns a, w').

Declare Scope leave_scope.
Delimit Scope leave_scope with leave.
Notation "x <- m ;; k" := (bindX m (fun x => k))
  (at level 61, m at next level, right associativity) : leave_scope.
Notation "m ;; k" := (bindX m (fun _ => k))
  (at level 61, right associativity) : leave_scope.

Local Open Scope leave_scope.

(** Line 132 with the heap consulted.  [EvNewClient false] records the
    allocation that failed, after which nothing of [loop] is run. *)
Definition new_or_leave : X bool :=
  fun env w =>
    if heap env (n_heap (cursors w)) then lift new_WiFiClientSecure env w
    else
      (Leaves, {| globals := globals w; cursors := next_heap (cursors w);
                  trace := trace w ++ [EvNewClient false] |}).

(** Lines 131-150. *)
Definition loop_send_or_leave : X unit :=
  st <- lift WiFi_status ;;
  if wl_status_eq_dec st WL_CONNECTED then
    client <- new_or_leave ;;
    if client then
      lift client_setInsecure ;;
      lift (http_begin serverUrl) ;;
      lift (http_addHeader "Content-Type" "application/json") ;;
      g <- lift read_globals ;;
      httpResponseCode <- lift (fun env => http_POST (payload_of env g) env) ;;
      lift (Serial_print (SStr "HTTP Response: ")) ;;
      lift (Serial_println (SInt httpResponseCode)) ;;
      lift http_end ;;
      lift delete_client
    else retX tt
  else retX tt.

(** Lines 81-153: one pass of [loop], or the part of it that is run. *)
Definition loop_or_leave : X unit :=
  lift loop_sample ;;
  lift checkWiFi ;;
  loop_send_or_leave ;;
  lift (delay 4000).

Local Close Scope leave_scope.

(** ** Observing a run *)

(** The calls made between two states of one run. *)
Definition events_since (w w' : Node) : list event :=
  skipn (List.length (trace w)) (trace w').

Definition count (p : event -> bool) (tr : list event) : nat :=
  List.length (filter p tr).

Definition is_poll (e : event) : bool :=
  match e with EvWiFiStatus _ => true | _ => false end.

Definition is_delay (e : event) : bool :=
  match e with EvDelay _ => true | _ => false end.

Definition is_POST (e : event) : bool :=
  match e with EvHttpPOST _ _ => true | _ => false end.

(** Commands that change the radio's state. *)
Definition is_radio_command (e : event) : bool :=
  match e with EvWiFiDisconnect | EvWiFiBegin _ _ => true | _ => false end.

(** Anything done with the secure client or the HTTP client. *)
Definition is_transport (e : event) : bool :=
  match e with
  | EvNewClient _ | EvSetInsecure | EvHttpBegin _ | EvHttpAddHeader _ _
  | EvHttpPOST _ _ | EvHttpEnd | EvDeleteClient => true
  | _ => false
  end.

Definition is_serial (e : event) : bool :=
  match e with EvPrint _ | EvPrintln _ => true | _ => false end.

(** The GPIO and timing calls of one ranging with measured pulse width [u]. *)
Definition ranging_events (u : Z) : list event :=
  [EvDigitalWrite TRIG false; EvDelayMicroseconds 5; EvDigitalWrite TRIG true;
   EvDelayMicroseconds 10; EvDigitalWrite TRIG false; EvPulseIn ECHO true 30000 u].

(** The summary block of the serial console for the readings in [g]. *)
Definition summary_events (g : Globals) : list event :=
  [EvPrintln (SStr (LF ++ "=============================="));
   EvPrintln (SStr "SMART URBAN FLOOD NODE");
   EvPrint (SStr "Rain Sensor: "); EvPrintln (SInt (rainAnalog g));
   EvPrint (SStr "Rain Intensity: "); EvPrintln (SStr (rainIntensity g));
   EvPrint (SStr "Water Distance: "); EvPrint (SFloat (distanceCM g));
   EvPrintln (SStr " cm");
   EvPrint (SStr "Flood Status: "); EvPrintln (SStr (floodStatus g));
   EvPrintln (SStr "==============================")].

(** The globals after sampling [r] on the ADC and [u] on the echo line. *)
Definition sampled (r u : Z) : Globals :=
  let d := distance_of_duration (long_of_unsigned u) in
  {| duration := long_of_unsigned u;
     distanceCM := d;
     rainAnalog := r;
     rainIntensity := rain_intensity_of r;
     floodStatus := flood_status_of r d |}.

(** Number of passes through the body of the polling loop when the first
    poll is answer [k] of the link stream and [m] passes are allowed: the
    position of the first [WL_CONNECTED] among answers [k .. k+m-1],
    or [m]. *)
Fixpoint waits (env : Env) (k m : nat) : nat :=
  match m with
  | O => O
  | S m' =>
      if wl_status_eq_dec (link env k) WL_CONNECTED then O
      else S (waits env (S k) m')
  end.

(** The calls of the polling loop when it makes [n] passes from answer [k]. *)
Fixpoint wait_events (env : Env) (k n : nat) : list event :=
  match n with
  | O => [EvWiFiStatus (link env k)]
  | S n' =>
      EvWiFiStatus (link env k) :: EvDelay 500 :: EvPrint (SStr ".")
        :: wait_events env (S k) n'
  end.

Definition skip_link (n : nat) (c : Cursors) : Cursors :=
  {| n_adc := n_adc c; n_echo := n_echo c; n_link := (n + n_link c)%nat;
     n_heap := n_heap c; n_post := n_post c |}.

(** The state the polling loop leaves after [n] passes. *)
Definition waited (env : Env) (n : nat) (w : Node) : Node :=
  {| globals := globals w;
     cursors := skip_link (S n) (cursors w);
     trace := trace w ++ wait_events env (n_link (cursors w)) n |}.

(** The line [checkWiFi] prints once the polling loop is over. *)
Definition verdict (st : wl_status_t) : event :=
  if wl_status_eq_dec st WL_CONNECTED
  then EvPrintln (SStr (LF ++ "Reconnected!"))
  else EvPrintln (SStr (LF ++ "Reconnection failed.")).

(** The calls of [checkWiFi] when the poll on entry is answer [k]. *)
Definition checkWiFi_events (env : Env) (k : nat) : list event :=
  if wl_status_eq_dec (link env k) WL_CONNECTED
  then [EvWiFiStatus (link env k)]
  else
    let n := waits env (S k) 20 in
    [EvWiFiStatus (link env k); EvPrintln (SStr "WiFi lost. Reconnecting...");
     EvWiFiDisconnect; EvWiFiBegin ssid password]
    ++ wait_events env (S k) n
    ++ [EvWiFiStatus (link env (S (S k) + n)); verdict (link env (S (S k) + n))].

(** Number of status polls [checkWiFi] makes from answer [k]. *)
Definition checkWiFi_polls (env : Env) (k : nat) : nat :=
  if wl_status_eq_dec (link env k) WL_CONNECTED then 1%nat
  else (3 + waits env (S k) 20)%nat.

(** ** A flat JSON object, to read the request body against *)

Inductive json_scalar : Type :=
| JString (s : string)
| JNumber (numeral : string).

Definition render_scalar (v : json_scalar) : string :=
  match v with
  | JString s => (DQ ++ s ++ DQ)%string
  | JNumber numeral => numeral
  end.

Definition render_member (kv : string * json_scalar) : string :=
  (DQ ++ fst kv ++ DQ ++ ":" ++ render_scalar (snd kv))%string.

Definition render_object (members : list (string * json_scalar)) : string :=
  ("{" ++ String.concat "," (map render_member members) ++ "}")%string.

(** The record of section 6 of the design for the readings in [g]. *)
Definition report_fields (env : Env) (g : Globals) : list (string * json_scalar) :=
  [("node_id", JString nodeID);
   ("rain_analog", JNumber (String_of_int (rainAnalog g)));
   ("rain_intensity", JString (rainIntensity g));
   ("water_distance_cm", JNumber (String_of_float env (distanceCM g)));
   ("flood_status", JString (floodStatus g))].

(** The calls of a successful report of body [payload] answered [code]. *)
Definition report_events (payload : string) (code : Z) : list event :=
  [EvNewClient true; EvSetInsecure; EvHttpBegin serverUrl;
   EvHttpAddHeader "Content-Type" "application/json";
   EvHttpPOST payload code;
   EvPrint (SStr "HTTP Response: "); EvPrintln (SInt code);
   EvHttpEnd; EvDeleteClient].

(** The state in which [loop] polls the link to decide whether to report
    (line 131). *)
Definition at_report_time (env : Env) (w : Node) : Node :=
  exec (bind loop_sample (fun _ => checkWiFi)) env w.

(** The calls of lines 131-150 when they start in state [w]. *)
Definition send_events (env : Env) (w : Node) : list event :=
  let st := link env (n_link (cursors w)) in
  EvWiFiStatus st ::
  (if wl_status_eq_dec st WL_CONNECTED
   then report_events (payload_of env (globals w)) (collector env (n_post (cursors w)))
   else []).

(** Whether the distance computed for pulse width [u] is a finite number
    within a relative 2^-23 of 0.017 * u, the exact value of
    (u * 0.034) / 2. *)
Definition accurate (u : Z) : bool :=
  match float_value (distance_of_duration u) with
  | Some q =>
      Qle_bool (Qabs (q - (17 * u # 1000))) ((17 * u # 1000) * (1 # 2 ^ 23))
  | None => false
  end.

(** [p] on the [n] integers from [lo] on. *)
Fixpoint all_from (p : Z -> bool) (lo : Z) (n : nat) : bool :=
  match n with
  | O => true
  | S n' => p lo && all_from p (Z.succ lo) n'
  end.

(** ** Sample environments *)

(** The core's [String(float)]: two decimals through [dtostrf], which works
    on a [double]: it adds 0.005, counts the digits before the point, and
    then cuts the digits off one at a time. *)
Module Dtostrf.
Definition of_Z (n : Z) : spec_float := binary_normalize 53 1024 n 0 false.
Definition add : spec_float -> spec_float -> spec_float := SFadd 53 1024.
Definition sub : spec_float -> spec_float -> spec_float := SFsub 53 1024.
Definition mul : spec_float -> spec_float -> spec_float := SFmul 53 1024.
Definition div : spec_float -> spec_float -> spec_float := SFdiv 53 1024.

(** The [float] argument passed as a [double]. *)
Definition of_float (f : spec_float) : spec_float :=
  match f with
  | S754_finite s m e => binary_round 53 1024 s m e
  | _ => f
  end.

(** The cast to an integer: truncation. *)
Definition to_int (x : spec_float) : Z :=
  match x with
  | S754_finite s m e =>
      let magnitude := if 0 <=? e then Z.pos m * 2 ^ e else Z.pos m / 2 ^ (- e) in
      if s then - magnitude else magnitude
  | _ => 0
  end.

(** The loop that finds the power of ten of [number]; at most 39 turns on a
    [float], which [fuel] covers. *)
Fixpoint scale (fuel : nat) (number tenpow : spec_float) (digitcount : nat)
  : spec_float * nat :=
  match fuel with
  | O => (tenpow, digitcount)
  | S fuel' =>
      if SFleb (mul (of_Z 10) tenpow) number
      then scale fuel' number (mul tenpow (of_Z 10)) (S digitcount)
      else (tenpow, digitcount)
  end.

(** The loop that writes the digits, the point after the one that leaves
    [prec] digits to write. *)
Fixpoint digits (digitcount prec : nat) (number : spec_float) : string :=
  match digitcount with
  | O => EmptyString
  | S digitcount' =>
      let digit := Z.min 9 (to_int number) in
      let point := if (digitcount' =? prec)%nat then "." else EmptyString in
      (String (ascii_of_nat (48 + Z.to_nat digit)) point
       ++ digits digitcount' prec (mul (sub number (of_Z digit)) (of_Z 10)))%string
  end.
End Dtostrf.

Definition two_decimals (f : spec_float) : string :=
  match f with
  | S754_nan => "nan"
  | S754_infinity _ => "inf"
  | _ =>
      let number := Dtostrf.of_float f in
      let negative := SFltb number (Dtostrf.of_Z 0) in
      let number := if negative then SFopp number else number in
      let rounding :=
        Dtostrf.div (Dtostrf.of_Z 1)
          (Dtostrf.mul (Dtostrf.mul (Dtostrf.of_Z 2) (Dtostrf.of_Z 10)) (Dtostrf.of_Z 10)) in
      let number := Dtostrf.add number rounding in
      let (tenpow, digitcount) := Dtostrf.scale 40 number (Dtostrf.of_Z 1) 1 in
      let number := Dtostrf.div number tenpow in
      let sign := if negative then "-" else EmptyString in
      (sign ++ Dtostrf.digits (digitcount + 2) 2 number)%string
  end.

(** Power-on values of the globals. *)
Definition boot : Node :=
  {| globals := {| duration := 0; distanceCM := S754_zero false; rainAnalog := 0;
                   rainIntensity := EmptyString; floodStatus := EmptyString |};
     cursors := {| n_adc := 0; n_echo := 0; n_link := 0; n_heap := 0; n_post := 0 |};
     trace := [] |}.

(** Heavy rain, water 8 cm below the sensor, link up, collector answers 200. *)
Definition env_up : Env :=
  {| adc := fun _ => 2000; echo := fun _ => 470;
     link := fun _ => WL_CONNECTED; heap := fun _ => true;
     collector := fun _ => 200; String_of_float := two_decimals |}.

(** The same readings with the access point gone for good. *)
Definition env_down : Env :=
  {| adc := fun _ => 2000; echo := fun _ => 470;
     link := fun _ => WL_DISCONNECTED; heap := fun _ => true;
     collector := fun _ => 200; String_of_float := two_decimals |}.

(** The link is lost on entry to [checkWiFi] and back at the fourth poll. *)
Definition env_back : Env :=
  {| adc := fun _ => 2000; echo := fun _ => 470;
     link := fun k => if (k <? 3)%nat then WL_CONNECTION_LOST else WL_CONNECTED;
     heap := fun _ => true;
     collector := fun _ => 200; String_of_float := two_decimals |}.

(** Link up, but no memory left for the secure client. *)
Definition env_no_memory : Env :=
  {| adc := fun _ => 2000; echo := fun _ => 470;
     link := fun _ => WL_CONNECTED; heap := fun _ => false;
     collector := fun _ => 200; String_of_float := two_decimals |}.

(** No rain, an obstacle 5 cm away, no echo problems. *)
Definition env_dry : Env :=
  {| adc := fun _ => 3700; echo := fun _ => 294;
     link := fun _ => WL_CONNECTED; heap := fun _ => true;
     collector := fun _ => 200; String_of_float := two_decimals |}.

(** Torrential rain, nothing in range of the ranger: every ranging times
    out. *)
Definition env_no_echo : Env :=
  {| adc := fun _ => 1500; echo := fun _ => 0;
     link := fun _ => WL_CONNECTED; heap := fun _ => true;
     collector := fun _ => 200; String_of_float := two_decimals |}.

(** ** Power-on: [setup] *)

(** Second argument of [pinMode]. *)
Inductive pin_mode : Type :=
| INPUT
| OUTPUT.

(** The calls of [setup]: those [loop] also makes, and the ones made only at
    power-on. *)
Inductive boot_event : Type :=
| BootSerialBegin (baud : Z)
| BootPinMode (pin : Z) (mode : pin_mode)
| BootLocalIP (ip : Z)
| BootPrintlnIP (ip : Z)
| BootCall (e : event).

(** State of [setup]: the link answers consumed and the calls made.  [setup]
    touches no global of the sketch. *)
Record Boot : Type := {
  boot_polls : nat;
  boot_trace : list boot_event    (* oldest first *)
}.

Definition boot_emit (e : boot_event) (b : Boot) : Boot :=
  {| boot_polls := boot_polls b; boot_trace := boot_trace b ++ [e] |}.

Definition boot_status (env : Env) (b : Boot) : wl_status_t * Boot :=
  let st := link env (boot_polls b) in
  (st, {| boot_polls := S (boot_polls b);
          boot_trace := boot_trace b ++ [BootCall (EvWiFiStatus st)] |}).

(** Lines 35-38: the loop of [setup] that waits for the link.  It has no
    bound of its own: [fuel] bounds the evaluations of its condition and
    [None] is a run that needs more. *)
Fixpoint setup_wait (fuel : nat) (env : Env) (b : Boot) : option Boot :=
  match fuel with
  | O => None
  | S fuel' =>
      let (st, b1) := boot_status env b in
      if wl_status_eq_dec st WL_CONNECTED then Some b1
      else
        setup_wait fuel' env
          (boot_emit (BootCall (EvPrint (SStr ".")))
             (boot_emit (BootCall (EvDelay 500)) b1))
  end.

(** Lines 23-45.  [ip] is what [WiFi.localIP()] answers. *)
Definition setup (fuel : nat) (env : Env) (ip : Z) (b : Boot) : option Boot :=
  let b := boot_emit (BootSerialBegin 115200) b in
  let b := boot_emit (BootPinMode TRIG OUTPUT) b in
  let b := boot_emit (BootPinMode ECHO INPUT) b in
  let b := boot_emit (BootPinMode RAIN_DO INPUT) b in
  let b := boot_emit (BootCall (EvDigitalWrite TRIG false)) b in
  let b := boot_emit (BootCall (EvWiFiBegin ssid password)) b in
  let b := boot_emit (BootCall (EvPrint (SStr "Connecting to WiFi"))) b in
  match setup_wait fuel env b with
  | None => None
  | Some b =>
      let b := boot_emit (BootCall (EvPrintln (SStr (LF ++ "WiFi connected!")))) b in
      let b := boot_emit (BootLocalIP ip) b in
      let b := boot_emit (BootPrintlnIP ip) b in
      let b :=
        boot_emit (BootCall (EvPrintln (SStr (LF ++ "SMART URBAN FLOOD NODE STARTED")))) b in
      let b := boot_emit (BootCall (EvDelay 2000)) b in
      Some b
  end.

(** The calls of [setup] before it starts waiting, and after. *)
Definition setup_prologue : list boot_event :=
  [BootSerialBegin 115200; BootPinMode TRIG OUTPUT; BootPinMode ECHO INPUT;
   BootPinMode RAIN_DO INPUT; BootCall (EvDigitalWrite TRIG false);
   BootCall (EvWiFiBegin ssid password);
   BootCall (EvPrint (SStr "Connecting to WiFi"))].

Definition setup_epilogue (ip : Z) : list boot_event :=
  [BootCall (EvPrintln (SStr (LF ++ "WiFi connected!")));
   BootLocalIP ip; BootPrintlnIP ip;
   BootCall (EvPrintln (SStr (LF ++ "SMART URBAN FLOOD NODE STARTED")));
   BootCall (EvDelay 2000)].

(** Power-on state. *)
Definition cold : Boot := {| boot_polls := 0; boot_trace := [] |}.

(** ** Several passes *)

(** [n] consecutive calls of [loop], as the core's main function makes
    them. *)
Fixpoint cycles (n : nat) : M unit :=
  match n with
  | O => ret tt
  | S n' => bind loop (fun _ => cycles n')
  end.

(** The bodies and return codes of the POSTs of a trace, in order. *)
Fixpoint posts (tr : list event) : list (string * Z) :=
  match tr with
  | [] => []
  | EvHttpPOST payload code :: rest => (payload, code) :: posts rest
  | _ :: rest => posts rest
  end.

(** Milliseconds spent in [delay]. *)
Fixpoint total_delay_ms (tr : list event) : Z :=
  match tr with
  | [] => 0
  | EvDelay ms :: rest => ms + total_delay_ms rest
  | _ :: rest => total_delay_ms rest
  end.

Definition is_sample (e : event) : bool :=
  match e with EvAnalogRead _ _ | EvPulseIn _ _ _ _ => true | _ => false end.

(** A state with other values in the globals. *)
Definition with_globals (g : Globals) (w : Node) : Node :=
  {| globals := g; cursors := cursors w; trace := trace w |}.

(** ** Severity *)

(** The flood labels by rising severity. *)
Definition flood_rank (label : string) : nat :=
  if String.eqb label "CRITICAL FLOOD" then 3
  else if String.eqb label "FLOOD RISK" then 2
  else if String.eqb label "RAIN ALERT" then 1
  else 0.

(** The intensity labels by rising intensity. *)
Definition intensity_rank (label : string) : nat :=
  if String.eqb label "TORRENTIAL RAIN" then 4
  else if String.eqb label "HEAVY RAIN" then 3
  else if String.eqb label "MODERATE RAIN" then 2
  else if String.eqb label "LIGHT RAIN" then 1
  else 0.

(** ** Text that can stand between the quotes of a JSON string *)

Definition json_plain_char (c : ascii) : bool :=
  let n := nat_of_ascii c in
  (32 <=? n)%nat && negb (n =? 34)%nat && negb (n =? 92)%nat.

Fixpoint json_plain (s : string) : bool :=
  match s with
  | EmptyString => true
  | String c rest => json_plain_char c && json_plain rest
  end.

(** ** The distance over the pulse widths of the timeout *)

(** Whether the distance [d] computed for pulse width [u] is a valid
    positive binary32 number lying on the side of 10, 20 and 400 that the
    pulse widths 588, 1176 and 23530 delimit. *)
Definition pulse_ok (u : Z) (d : spec_float) : bool :=
  match d with
  | S754_finite false m e =>
      bounded Binary32.prec Binary32.emax m e
      && Bool.eqb (Binary32.ltb d (Binary32.of_Z 10)) (u <=? 588)
      && Bool.eqb (Binary32.ltb d (Binary32.of_Z 20)) (u <=? 1176)
      && Bool.eqb (Binary32.ltb (Binary32.of_Z 400) d) (23530 <=? u)
  | _ => false
  end.

(** [pulse_ok] on the [n] pulse widths from [lo] on, the distances never
    falling, nor below [prev] units. *)
Fixpoint sweep (prev : Z) (lo : Z) (n : nat) : bool :=
  match n with
  | O => true
  | S n' =>
      let d := distance_of_duration lo in
      pulse_ok lo d && (prev <=? units d) && sweep (units d) (Z.succ lo) n'
  end.

(** ** The life of the secure client *)





(** The access point comes back just after [checkWiFi] has given up: the
    first 23 polls find the link down. *)
Definition env_late : Env :=
  {| adc := fun _ => 2000; echo := fun _ => 470;
     link := fun k => if (k <? 23)%nat then WL_DISCONNECTED else WL_CONNECTED;
     heap := fun _ => true;
     collector := fun _ => 200; String_of_float := two_decimals |}.


(** * Properties *)

(** ** Comparisons of [float] values *)

Lemma of_Z_10 : Binary32.of_Z 10 = S754_finite false 10485760 (-20).
Proof. reflexivity. Qed.

Lemma of_Z_20 : Binary32.of_Z 20 = S754_finite false 10485760 (-19).
Proof. reflexivity. Qed.

Lemma SFcompare_antisym (x y : spec_float) :
  SFcompare y x = option_map CompOpp (SFcompare x y).
Proof.
  destruct x as [[]|[]| |[] mx ex], y as [[]|[]| |[] my ey]; simpl; try reflexivity;
    rewrite (Z.compare_antisym ey ex);
    destruct (ey ?= ex); simpl; try reflexivity;
    rewrite (Pos.compare_cont_antisym mx my Eq); simpl;
    destruct (Pos.compare_cont Eq mx my); reflexivity.
Qed.

(** Away from NaN, [x < y] fails exactly when [y <= x]. *)
Lemma ltb_false_iff_leb (x y : spec_float) :
  SFcompare x y <> None ->
  (Binary32.ltb x y = false <-> Binary32.leb y x = true).
Proof.
  unfold Binary32.ltb, Binary32.leb, SFltb, SFleb.
  rewrite (SFcompare_antisym x y).
  destruct (SFcompare x y) as [[]|]; simpl; intuition congruence.
Qed.

Lemma compare_not_nan (x y : spec_float) :
  x <> S754_nan -> y <> S754_nan -> SFcompare x y <> None.
Proof.
  destruct x as [[]|[]| |[] mx ex], y as [[]|[]| |[] my ey]; simpl; congruence.
Qed.

Lemma leb_zero_not_nan (d : spec_float) :
  Binary32.leb (Binary32.of_Z 0) d = true -> d <> S754_nan.
Proof. intros H ->. discriminate H. Qed.

(** Below 10 is below 20. *)
Lemma ltb_10_ltb_20 (d : spec_float) :
  Binary32.ltb d (Binary32.of_Z 10) = true ->
  Binary32.ltb d (Binary32.of_Z 20) = true.
Proof.
  rewrite of_Z_10, of_Z_20. unfold Binary32.ltb, SFltb.
  destruct d as [[]|[]| |[] m e]; cbn [SFcompare]; try congruence.
  destruct (Z.compare_spec e (-20)), (Z.compare_spec e (-19)); try lia; try congruence.
Qed.

(** ** The comparisons of the model and the values compared *)

Lemma digits2_pos_bounds (m : positive) :
  2 ^ (Z.pos (digits2_pos m) - 1) <= Z.pos m < 2 ^ Z.pos (digits2_pos m).
Proof.
  induction m as [m IH | m IH |]; cbn [digits2_pos].
  - rewrite Pos2Z.inj_succ.
    replace (Z.succ (Z.pos (digits2_pos m)) - 1) with (Z.succ (Z.pos (digits2_pos m) - 1)) by lia.
    rewrite !Z.pow_succ_r by lia. lia.
  - rewrite Pos2Z.inj_succ.
    replace (Z.succ (Z.pos (digits2_pos m)) - 1) with (Z.succ (Z.pos (digits2_pos m) - 1)) by lia.
    rewrite !Z.pow_succ_r by lia. lia.
  - cbn. lia.
Qed.

Lemma bounded_binary32 (m : positive) (e : Z) :
  bounded Binary32.prec Binary32.emax m e = true ->
  -149 <= e <= 104 /\ Z.pos m < 2 ^ 24 /\ (-149 < e -> 2 ^ 23 <= Z.pos m).
Proof.
  unfold bounded, canonical_mantissa, fexp, emin, Binary32.prec, Binary32.emax.
  intros H. apply andb_true_iff in H. destruct H as [Hc He].
  apply Z.eqb_eq in Hc. apply Z.leb_le in He.
  pose proof (digits2_pos_bounds m) as [Hlo Hhi].
  set (k := Z.pos (digits2_pos m)) in *.
  assert (Hk : k <= 24) by lia.
  split; [lia |]. split.
  - apply Z.lt_le_trans with (2 ^ k); [exact Hhi |].
    apply Z.pow_le_mono_r; lia.
  - intros Hnormal. assert (k = 24) by lia. subst k. rewrite H in Hlo. exact Hlo.
Qed.

Lemma units_lt (m1 m2 : positive) (e1 e2 : Z) :
  -149 <= e1 -> e1 < e2 -> Z.pos m1 < 2 ^ 24 -> 2 ^ 23 <= Z.pos m2 ->
  Z.pos m1 * 2 ^ (e1 + 149) < Z.pos m2 * 2 ^ (e2 + 149).
Proof.
  intros He1 Hlt H1 H2.
  assert (Hp : 0 < 2 ^ (e1 + 149)) by (apply Z.pow_pos_nonneg; lia).
  assert (Hmono : 2 ^ (e1 + 149 + 1) <= 2 ^ (e2 + 149)) by (apply Z.pow_le_mono_r; lia).
  rewrite Z.pow_add_r in Hmono by lia. change (2 ^ 1) with 2 in Hmono.
  change (2 ^ 24) with 16777216 in H1. change (2 ^ 23) with 8388608 in H2.
  nia.
Qed.

(** On valid positive [float]s the comparison of the model is the
    comparison of the values, counted in units of 2^-149. *)
Lemma compare_valid_pos (m1 m2 : positive) (e1 e2 : Z) :
  bounded Binary32.prec Binary32.emax m1 e1 = true ->
  bounded Binary32.prec Binary32.emax m2 e2 = true ->
  SFcompare (S754_finite false m1 e1) (S754_finite false m2 e2) =
    Some (units (S754_finite false m1 e1) ?= units (S754_finite false m2 e2)).
Proof.
  intros H1 H2.
  destruct (bounded_binary32 m1 e1 H1) as (He1 & Hm1 & Hn1).
  destruct (bounded_binary32 m2 e2 H2) as (He2 & Hm2 & Hn2).
  cbn [SFcompare units]. rewrite !Z.mul_1_l. f_equal.
  destruct (Z.compare_spec e1 e2) as [-> | Hlt | Hgt].
  - assert (Hp : 0 < 2 ^ (e2 + 149)) by (apply Z.pow_pos_nonneg; lia).
    change (Pos.compare_cont Eq m1 m2) with (Z.pos m1 ?= Z.pos m2).
    symmetry. destruct (Z.compare_spec (Z.pos m1) (Z.pos m2)) as [Heq | Hlt | Hgt].
    + rewrite Heq. apply Z.compare_refl.
    + apply Z.compare_lt_iff. nia.
    + apply Z.compare_gt_iff. nia.
  - symmetry. apply Z.compare_lt_iff. apply units_lt; lia.
  - symmetry. apply Z.compare_gt_iff. apply units_lt; lia.
Qed.

(** The value of a finite [float] is its number of units of 2^-149. *)
Lemma float_value_units (s : bool) (m : positive) (e : Z) :
  -149 <= e ->
  exists q,
    float_value (S754_finite s m e) = Some q /\
    (q == inject_Z (units (S754_finite s m e)) / inject_Z (2 ^ 149))%Q.
Proof.
  intros He. eexists. split; [reflexivity |].
  cbn [units].
  assert (Hpow : (Qpower 2 (e + 149) == Qpower 2 e * Qpower 2 149)%Q).
  { apply Qpower_plus. discriminate. }
  assert (Hz : (inject_Z (2 ^ (e + 149)) == Qpower 2 (e + 149))%Q).
  { rewrite Zpower_Qpower by lia. reflexivity. }
  assert (H149 : (inject_Z (2 ^ 149) == Qpower 2 149)%Q).
  { rewrite Zpower_Qpower by lia. reflexivity. }
  rewrite !inject_Z_mult, Hz, H149, Hpow.
  assert (Hnz : ~ (Qpower 2 149 == 0)%Q) by (vm_compute; discriminate).
  destruct s; field; exact Hnz.
Qed.

Lemma ltb_valid_pos (m1 m2 : positive) (e1 e2 : Z) :
  bounded Binary32.prec Binary32.emax m1 e1 = true ->
  bounded Binary32.prec Binary32.emax m2 e2 = true ->
  (Binary32.ltb (S754_finite false m1 e1) (S754_finite false m2 e2) = true
   <-> units (S754_finite false m1 e1) < units (S754_finite false m2 e2)).
Proof.
  intros H1 H2. unfold Binary32.ltb, SFltb.
  rewrite (compare_valid_pos m1 m2 e1 e2 H1 H2).
  rewrite <- Z.compare_lt_iff.
  destruct (units (S754_finite false m1 e1) ?= units (S754_finite false m2 e2));
    intuition congruence.
Qed.

(** ** The two ladders *)

Ltac ladder_cases r :=
  destruct (Z.ltb_spec 3600 r); destruct (Z.ltb_spec 3000 r);
  destruct (Z.ltb_spec 2400 r); destruct (Z.ltb_spec 1800 r);
  destruct (Z.ltb_spec r 2400); try lia.

Lemma rain_intensity_of_ltb (r : Z) :
  rain_intensity_of r =
    if 3600 <? r then "NO RAIN"
    else if 3000 <? r then "LIGHT RAIN"
    else if 2400 <? r then "MODERATE RAIN"
    else if 1800 <? r then "HEAVY RAIN"
    else "TORRENTIAL RAIN".
Proof. unfold rain_intensity_of. rewrite !Z.gtb_ltb. reflexivity. Qed.

(** The two lowest bands together are the readings of at most 2400. *)
Lemma heavy_or_torrential_iff (r : Z) :
  rain_intensity_of r = "HEAVY RAIN" \/ rain_intensity_of r = "TORRENTIAL RAIN"
  <-> r <= 2400.
Proof.
  rewrite rain_intensity_of_ltb.
  ladder_cases r; intuition (try discriminate; try lia).
Qed.

(** C2.  The rain intensity is decided top-down by strict comparisons: each
    label is returned on exactly its band, lower bounds excluded (3600 itself
    is LIGHT RAIN), TORRENTIAL RAIN is the default, and every reading gets
    one of the five labels. *)
Theorem rain_intensity_bands (r : Z) :
  (rain_intensity_of r = "NO RAIN" <-> 3600 < r) /\
  (rain_intensity_of r = "LIGHT RAIN" <-> 3000 < r <= 3600) /\
  (rain_intensity_of r = "MODERATE RAIN" <-> 2400 < r <= 3000) /\
  (rain_intensity_of r = "HEAVY RAIN" <-> 1800 < r <= 2400) /\
  (rain_intensity_of r = "TORRENTIAL RAIN" <-> r <= 1800) /\
  rain_intensity_of 3600 = "LIGHT RAIN" /\
  rain_intensity_of r =
    first_match [(3600 <? r, "NO RAIN"); (3000 <? r, "LIGHT RAIN");
                 (2400 <? r, "MODERATE RAIN"); (1800 <? r, "HEAVY RAIN")]
      "TORRENTIAL RAIN" /\
  In (rain_intensity_of r) intensity_labels /\
  NoDup intensity_labels.
Proof.
  rewrite rain_intensity_of_ltb. simpl first_match.
  repeat split; try (ladder_cases r; (lia || discriminate || reflexivity)).
  - ladder_cases r; simpl; tauto.
  - unfold intensity_labels.
    repeat (constructor; [simpl; intuition discriminate|]). constructor.
Qed.

(** The last branch of the flood ladder: a reading of 2400 or more gives
    NORMAL whatever the distance, NaN included. *)
Lemma flood_status_normal (r : Z) (d : spec_float) :
  2400 <= r -> flood_status_of r d = "NORMAL".
Proof.
  intros H. unfold flood_status_of.
  destruct (Z.ltb_spec r 2400); [lia | reflexivity].
Qed.

Lemma flood_status_normal_iff (r : Z) (d : spec_float) :
  flood_status_of r d = "NORMAL" <-> 2400 <= r.
Proof.
  split; [| apply flood_status_normal].
  unfold flood_status_of. destruct (Z.ltb_spec r 2400); [| lia].
  cbn [andb].
  destruct (Binary32.ltb d (Binary32.of_Z 10)), (Binary32.ltb d (Binary32.of_Z 20));
    discriminate.
Qed.

(** C1.  For a distance that is not negative the flood status is the first
    match of CRITICAL FLOOD, FLOOD RISK, RAIN ALERT, NORMAL: CRITICAL FLOOD
    whenever the reading is below 2400 and the distance below 10, FLOOD RISK
    exactly for a distance in [10, 20), RAIN ALERT exactly from 20 on, and
    where the guards of CRITICAL FLOOD and FLOOD RISK both hold the result is
    CRITICAL FLOOD. *)
Theorem flood_status_priority (r : Z) (d : spec_float) :
  Binary32.leb (Binary32.of_Z 0) d = true ->
  flood_status_of r d =
    first_match
      [((r <? 2400) && Binary32.ltb d (Binary32.of_Z 10), "CRITICAL FLOOD");
       ((r <? 2400) && Binary32.ltb d (Binary32.of_Z 20), "FLOOD RISK");
       (r <? 2400, "RAIN ALERT")]
      "NORMAL" /\
  (flood_status_of r d = "CRITICAL FLOOD" <->
     r < 2400 /\ Binary32.ltb d (Binary32.of_Z 10) = true) /\
  (flood_status_of r d = "FLOOD RISK" <->
     r < 2400 /\ Binary32.leb (Binary32.of_Z 10) d = true
              /\ Binary32.ltb d (Binary32.of_Z 20) = true) /\
  (flood_status_of r d = "RAIN ALERT" <->
     r < 2400 /\ Binary32.leb (Binary32.of_Z 20) d = true) /\
  (r < 2400 /\ Binary32.ltb d (Binary32.of_Z 10) = true ->
     (r <? 2400) && Binary32.ltb d (Binary32.of_Z 20) = true /\
     flood_status_of r d <> "FLOOD RISK").
Proof.
  intros Hpos.
  assert (Hnan : d <> S754_nan) by (apply leb_zero_not_nan; exact Hpos).
  assert (H10 : Binary32.ltb d (Binary32.of_Z 10) = false <->
                Binary32.leb (Binary32.of_Z 10) d = true).
  { apply ltb_false_iff_leb, compare_not_nan; [exact Hnan | discriminate]. }
  assert (H20 : Binary32.ltb d (Binary32.of_Z 20) = false <->
                Binary32.leb (Binary32.of_Z 20) d = true).
  { apply ltb_false_iff_leb, compare_not_nan; [exact Hnan | discriminate]. }
  pose proof (ltb_10_ltb_20 d) as Hmono.
  unfold flood_status_of. cbn [first_match].
  revert H10 H20 Hmono.
  generalize (Binary32.leb (Binary32.of_Z 10) d), (Binary32.leb (Binary32.of_Z 20) d),
    (Binary32.ltb d (Binary32.of_Z 10)), (Binary32.ltb d (Binary32.of_Z 20)).
  intros l10 l20 c10 c20 H10 H20 Hmono.
  destruct (Z.ltb_spec r 2400) as [Hr | Hr]; cbn [andb];
    destruct c10, c20, l10, l20; cbn [andb];
    intuition (try discriminate; try lia).
Qed.

Lemma flood_status_priority_witness :
  Binary32.leb (Binary32.of_Z 0) (Binary32.of_Z 15) = true /\
  flood_status_of 2000 (Binary32.of_Z 15) = "FLOOD RISK".
Proof.
  split; [reflexivity |].
  destruct (flood_status_priority 2000 (Binary32.of_Z 15) eq_refl) as (_ & _ & H & _).
  apply H. repeat split; reflexivity.
Defined.

(** C10.  The intensity ladder tests [> 2400] and the flood ladder [< 2400]:
    an alert (a status other than NORMAL) implies HEAVY RAIN or TORRENTIAL
    RAIN, the converse fails exactly at the reading 2400, where every
    distance gives HEAVY RAIN with NORMAL; so HEAVY RAIN does not imply an
    alert. *)
Theorem ladders_disagree_at_2400 (r : Z) (d : spec_float) :
  (negb (r >? 2400) <> (r <? 2400) <-> r = 2400) /\
  (flood_status_of r d <> "NORMAL" ->
     rain_intensity_of r = "HEAVY RAIN" \/ rain_intensity_of r = "TORRENTIAL RAIN") /\
  ((rain_intensity_of r = "HEAVY RAIN" \/ rain_intensity_of r = "TORRENTIAL RAIN")
     /\ flood_status_of r d = "NORMAL" <-> r = 2400) /\
  (rain_intensity_of 2400 = "HEAVY RAIN" /\ flood_status_of 2400 d = "NORMAL") /\
  ~ (forall (r' : Z) (d' : spec_float),
       rain_intensity_of r' = "HEAVY RAIN" -> flood_status_of r' d' <> "NORMAL").
Proof.
  pose proof (heavy_or_torrential_iff r) as Hlow.
  pose proof (flood_status_normal_iff r d) as Hnormal.
  split; [| split; [| split; [| split]]].
  - rewrite Z.gtb_ltb.
    destruct (Z.ltb_spec 2400 r), (Z.ltb_spec r 2400); cbn [negb];
      intuition (try congruence; try lia).
  - intros Halert. apply Hlow.
    destruct (Z.lt_ge_cases r 2400); [lia | tauto].
  - split.
    + intros [H Hn]. apply Hnormal in Hn. apply Hlow in H. lia.
    + intros ->. split; [left; reflexivity | apply flood_status_normal; lia].
  - split; [reflexivity | apply flood_status_normal; lia].
  - intros Hall. apply (Hall 2400 d); [reflexivity | apply flood_status_normal; lia].
Qed.

(** ** Running the procedures *)

Ltac run :=
  cbv [bind ret call ask exec read_globals write_globals
       analogRead pulseIn WiFi_status new_WiFiClientSecure http_POST
       digitalWrite delayMicroseconds delay Serial_print Serial_println
       WiFi_disconnect WiFi_begin client_setInsecure http_begin http_addHeader
       http_end delete_client fst snd globals cursors trace];
  rewrite <- ?app_assoc; cbn [app].

Lemma getUltrasonic_run (env : Env) (w : Node) :
  let u := echo env (n_echo (cursors w)) in
  getUltrasonic env w =
    (distance_of_duration (long_of_unsigned u),
     {| globals := set_duration (long_of_unsigned u) (globals w);
        cursors := next_echo (cursors w);
        trace := trace w ++ ranging_events u |}).
Proof.
  intros u. unfold getUltrasonic. destruct w as [g c tr]. run.
  reflexivity.
Qed.

Lemma reconnect_wait_eq (attempts : Z) (env : Env) (w : Node) :
  reconnect_wait attempts env w =
    let (st, w1) := WiFi_status env w in
    if wl_status_eq_dec st WL_CONNECTED then (attempts, w1)
    else if Z_lt_dec attempts 20
         then reconnect_wait (attempts + 1) env
                (exec (bind (delay 500) (fun _ => Serial_print (SStr "."))) env w1)
         else (attempts, w1).
Proof.
  simp reconnect_wait.
  destruct (WiFi_status env w) as [st w1]. simp reconnect_wait.
  destruct (wl_status_eq_dec st WL_CONNECTED); simp reconnect_wait; [reflexivity |].
  destruct (Z_lt_dec attempts 20); simp reconnect_wait; reflexivity.
Qed.

Lemma wait_events_snoc (env : Env) (k n : nat) :
  wait_events env k (S n) =
    [EvWiFiStatus (link env k); EvDelay 500; EvPrint (SStr ".")]
    ++ wait_events env (S k) n.
Proof. reflexivity. Qed.

Lemma skip_link_next (n : nat) (c : Cursors) :
  skip_link n (next_link c) = skip_link (S n) c.
Proof.
  unfold skip_link, next_link. cbn [n_adc n_echo n_link n_heap n_post].
  f_equal. lia.
Qed.

Lemma next_link_skip_0 (c : Cursors) : next_link c = skip_link 1 c.
Proof. destruct c; reflexivity. Qed.

(** The polling loop with [m] passes left makes [waits env k m] of them. *)
Lemma reconnect_wait_run (env : Env) (m : nat) :
  forall (attempts : Z) (w : Node),
    attempts_left attempts = m ->
    let n := waits env (n_link (cursors w)) m in
    reconnect_wait attempts env w = (attempts + Z.of_nat n, waited env n w).
Proof.
  induction m as [| m IH]; intros attempts w Hm; rewrite reconnect_wait_eq;
    destruct w as [g c tr]; run; cbn [waits];
    destruct (wl_status_eq_dec (link env (n_link c)) WL_CONNECTED) as [Hup | Hdown].
  - unfold waited. cbn. rewrite Z.add_0_r. reflexivity.
  - unfold attempts_left in Hm.
    destruct (Z_lt_dec attempts 20); [lia |].
    unfold waited. cbn. rewrite Z.add_0_r. reflexivity.
  - unfold waited. cbn. rewrite Z.add_0_r. reflexivity.
  - unfold attempts_left in Hm.
    destruct (Z_lt_dec attempts 20); [| lia].
    rewrite IH by (unfold attempts_left; lia).
    unfold waited. cbn [globals cursors trace n_link next_link skip_link
                        n_adc n_echo n_heap n_post].
    rewrite <- app_assoc. cbn [app wait_events].
    rewrite skip_link_next. f_equal. lia.
Qed.

Lemma checkWiFi_run (env : Env) (w : Node) :
  let k := n_link (cursors w) in
  checkWiFi env w =
    (tt, {| globals := globals w;
            cursors := skip_link (checkWiFi_polls env k) (cursors w);
            trace := trace w ++ checkWiFi_events env k |}).
Proof.
  intros k. subst k. unfold checkWiFi, checkWiFi_polls, checkWiFi_events.
  destruct w as [g c tr]. run.
  destruct (wl_status_eq_dec (link env (n_link c)) WL_CONNECTED) as [Hup | Hdown].
  - rewrite next_link_skip_0. reflexivity.
  - run. rewrite (reconnect_wait_run env 20 0) by reflexivity.
    unfold waited, verdict. run.
    cbn [n_link next_link skip_link n_adc n_echo n_heap n_post].
    replace (S (waits env (S (n_link c)) 20) + S (n_link c))%nat
      with (S (S (n_link c)) + waits env (S (n_link c)) 20)%nat by lia.
    destruct (wl_status_eq_dec _ WL_CONNECTED); run; rewrite <- ?app_assoc;
      cbn [app]; repeat f_equal;
      rewrite skip_link_next; reflexivity.
Qed.

Lemma loop_sample_run (env : Env) (w : Node) :
  let r := adc env (n_adc (cursors w)) in
  let u := echo env (n_echo (cursors w)) in
  loop_sample env w =
    (tt, {| globals := sampled r u;
            cursors := next_echo (next_adc (cursors w));
            trace := trace w ++ [EvAnalogRead RAIN_AO r] ++ ranging_events u
                             ++ summary_events (sampled r u) |}).
Proof.
  intros r u. subst r u. unfold loop_sample. destruct w as [g c tr].
  cbv [bind]. run. rewrite getUltrasonic_run. run.
  reflexivity.
Qed.

Lemma loop_send_run (env : Env) (w : Node) :
  loop_send env w =
    (tt,
     let st := link env (n_link (cursors w)) in
     if wl_status_eq_dec st WL_CONNECTED then
       let payload := payload_of env (globals w) in
       let code := collector env (n_post (cursors w)) in
       {| globals := globals w;
          cursors := next_post (next_heap (next_link (cursors w)));
          trace := trace w ++ [EvWiFiStatus st] ++ report_events payload code |}
     else
       {| globals := globals w;
          cursors := next_link (cursors w);
          trace := trace w ++ [EvWiFiStatus st] |}).
Proof.
  unfold loop_send. destruct w as [g c tr]. run.
  destruct (wl_status_eq_dec (link env (n_link c)) WL_CONNECTED); run; reflexivity.
Qed.

Lemma at_report_time_run (env : Env) (w : Node) :
  let r := adc env (n_adc (cursors w)) in
  let u := echo env (n_echo (cursors w)) in
  let k := n_link (cursors w) in
  at_report_time env w =
    {| globals := sampled r u;
       cursors := skip_link (checkWiFi_polls env k) (next_echo (next_adc (cursors w)));
       trace := trace w ++ [EvAnalogRead RAIN_AO r] ++ ranging_events u
                        ++ summary_events (sampled r u)
                        ++ checkWiFi_events env k |}.
Proof.
  intros r u k. subst r u k. unfold at_report_time, exec, bind.
  rewrite loop_sample_run, checkWiFi_run.
  cbn [snd globals cursors trace n_link next_echo next_adc].
  rewrite <- !app_assoc. reflexivity.
Qed.

Lemma loop_run (env : Env) (w : Node) :
  let R := at_report_time env w in
  exec loop env w =
    {| globals := globals R;
       cursors := cursors (exec loop_send env R);
       trace := trace R ++ send_events env R ++ [EvDelay 4000] |}.
Proof.
  intros R. subst R. unfold loop, at_report_time, exec, bind.
  destruct (loop_sample env w) as [[] w1].
  destruct (checkWiFi env w1) as [[] w2]. cbn [snd].
  rewrite loop_send_run. unfold send_events, delay, call.
  destruct (wl_status_eq_dec (link env (n_link (cursors w2))) WL_CONNECTED);
    cbn [globals cursors trace snd]; rewrite <- ?app_assoc; reflexivity.
Qed.

Lemma events_since_app (w w' : Node) (evs : list event) :
  trace w' = trace w ++ evs -> events_since w w' = evs.
Proof.
  intros H. unfold events_since. rewrite H.
  rewrite skipn_app, skipn_all, Nat.sub_diag. reflexivity.
Qed.

Lemma count_app (p : event -> bool) (a b : list event) :
  count p (a ++ b) = (count p a + count p b)%nat.
Proof. unfold count. rewrite filter_app, length_app. reflexivity. Qed.

Lemma waits_le (env : Env) (m : nat) : forall k, (waits env k m <= m)%nat.
Proof.
  induction m as [| m IH]; intros k; cbn [waits]; [lia |].
  destruct (wl_status_eq_dec (link env k) WL_CONNECTED); [lia |].
  specialize (IH (S k)). lia.
Qed.

(** The loop runs out of passes when no poll is answered [WL_CONNECTED]. *)
Lemma waits_never_up (env : Env) (m : nat) :
  forall k,
    (forall i, (i < m)%nat -> link env (k + i) <> WL_CONNECTED) ->
    waits env k m = m.
Proof.
  induction m as [| m IH]; intros k Hdown; cbn [waits]; [reflexivity |].
  destruct (wl_status_eq_dec (link env k) WL_CONNECTED) as [Hup | _].
  - exfalso. apply (Hdown 0%nat); [lia |]. rewrite Nat.add_0_r. exact Hup.
  - f_equal. apply IH. intros i Hi.
    replace (S k + i)%nat with (k + S i)%nat by lia. apply Hdown. lia.
Qed.

(** The loop stops at the first poll answered [WL_CONNECTED]. *)
Lemma waits_stops (env : Env) (m : nat) :
  forall k,
    (forall i, (i < waits env k m)%nat -> link env (k + i) <> WL_CONNECTED) /\
    ((waits env k m < m)%nat -> link env (k + waits env k m) = WL_CONNECTED).
Proof.
  induction m as [| m IH]; intros k; cbn [waits]; [split; intros; lia |].
  destruct (wl_status_eq_dec (link env k) WL_CONNECTED) as [Hup | Hdown].
  - split; [intros; lia |]. intros _. rewrite Nat.add_0_r. exact Hup.
  - destruct (IH (S k)) as [Hbefore Hat]. split.
    + intros [| i] Hi; [rewrite Nat.add_0_r; exact Hdown |].
      replace (k + S i)%nat with (S k + i)%nat by lia. apply Hbefore. lia.
    + intros Hlt. replace (k + S (waits env (S k) m))%nat
        with (S k + waits env (S k) m)%nat by lia.
      apply Hat. lia.
Qed.

Lemma count_wait_events (env : Env) (n : nat) :
  forall k,
    count is_delay (wait_events env k n) = n /\
    count is_poll (wait_events env k n) = S n /\
    count is_radio_command (wait_events env k n) = 0%nat /\
    count is_transport (wait_events env k n) = 0%nat /\
    Forall (fun e => is_delay e = true -> e = EvDelay 500) (wait_events env k n).
Proof.
  induction n as [| n IH]; intros k.
  - cbn. repeat split. repeat constructor. discriminate.
  - destruct (IH (S k)) as (Hd & Hp & Hr & Ht & Hall).
    rewrite wait_events_snoc, !count_app. rewrite Hd, Hp, Hr, Ht.
    repeat split.
    repeat (constructor; [cbn; intros; try discriminate; reflexivity |]).
    exact Hall.
Qed.

(** ** The connectivity manager: [checkWiFi] *)

(** C7.  Called while the link is up, [checkWiFi] does nothing but read the
    status: no disconnect, no reconnection, no wait, no output, and the
    globals are as before. *)
Theorem checkWiFi_connected_noop (env : Env) (w : Node) :
  link env (n_link (cursors w)) = WL_CONNECTED ->
  let w' := exec checkWiFi env w in
  trace w' = trace w ++ [EvWiFiStatus WL_CONNECTED] /\
  events_since w w' = [EvWiFiStatus WL_CONNECTED] /\
  count is_radio_command (events_since w w') = 0%nat /\
  count is_delay (events_since w w') = 0%nat /\
  count is_serial (events_since w w') = 0%nat /\
  globals w' = globals w /\
  cursors w' = next_link (cursors w).
Proof.
  intros Hup w'.
  assert (Htrace : trace w' = trace w ++ [EvWiFiStatus WL_CONNECTED]).
  { subst w'. unfold exec. rewrite checkWiFi_run. cbn [snd trace].
    unfold checkWiFi_events. rewrite Hup. reflexivity. }
  rewrite (events_since_app _ _ _ Htrace).
  subst w'. unfold exec in *. rewrite checkWiFi_run in *. cbn [snd globals cursors] in *.
  unfold checkWiFi_polls. rewrite Hup. cbn [wl_status_eq_dec].
  repeat split; try reflexivity; exact Htrace.
Qed.

Lemma checkWiFi_connected_noop_witness :
  link env_up (n_link (cursors boot)) = WL_CONNECTED /\
  events_since boot (exec checkWiFi env_up boot) = [EvWiFiStatus WL_CONNECTED].
Proof.
  split; [reflexivity |].
  apply (checkWiFi_connected_noop env_up boot). reflexivity.
Defined.

Lemma last_two {A : Type} (l : list A) (a b d : A) : last (l ++ [a; b]) d = b.
Proof. change [a; b] with ([a] ++ [b]). rewrite app_assoc. apply last_last. Qed.

Lemma count_verdict (st st' : wl_status_t) :
  count is_delay [EvWiFiStatus st; verdict st'] = 0%nat /\
  count is_poll [EvWiFiStatus st; verdict st'] = 1%nat /\
  count is_radio_command [EvWiFiStatus st; verdict st'] = 0%nat /\
  count is_transport [EvWiFiStatus st; verdict st'] = 0%nat.
Proof.
  unfold verdict. destruct (wl_status_eq_dec st' WL_CONNECTED); repeat split.
Qed.

Lemma checkWiFi_events_down (env : Env) (w : Node) :
  link env (n_link (cursors w)) <> WL_CONNECTED ->
  let k := n_link (cursors w) in
  let n := waits env (S k) 20 in
  let w' := exec checkWiFi env w in
  events_since w w' =
    [EvWiFiStatus (link env k); EvPrintln (SStr "WiFi lost. Reconnecting...");
     EvWiFiDisconnect; EvWiFiBegin ssid password]
    ++ wait_events env (S k) n
    ++ [EvWiFiStatus (link env (S (S k) + n)); verdict (link env (S (S k) + n))] /\
  n_link (cursors w') = (3 + n + k)%nat /\
  globals w' = globals w.
Proof.
  intros Hdown k n w'. subst w'. unfold exec. rewrite checkWiFi_run.
  cbn [snd globals cursors trace]. split; [| split; [| reflexivity]].
  - apply events_since_app. cbn [trace]. unfold checkWiFi_events. fold k.
    destruct (wl_status_eq_dec (link env k) WL_CONNECTED); [contradiction | reflexivity].
  - unfold checkWiFi_polls. fold k.
    destruct (wl_status_eq_dec (link env k) WL_CONNECTED); [contradiction | reflexivity].
Qed.

(** C5, as the code has it.  Called while the link is down, [checkWiFi]
    terminates after at most 20 waits of 500 ms and 23 status polls; it stops
    waiting at the first poll answered connected; it prints the line
    Reconnected! when the status it polls last is connected and
    Reconnection failed. otherwise; when the link never returns it makes all
    20 waits and ends on Reconnection failed.  It hands nothing back: its
    value is that of a [void] function, and the globals are untouched. *)
Theorem checkWiFi_bounded (env : Env) (w : Node) :
  link env (n_link (cursors w)) <> WL_CONNECTED ->
  let k := n_link (cursors w) in
  let w' := exec checkWiFi env w in
  let evs := events_since w w' in
  let last_polled := link env (pred (n_link (cursors w'))) in
  (count is_delay evs <= 20)%nat /\
  (count is_poll evs <= 23)%nat /\
  Forall (fun e => is_delay e = true -> e = EvDelay 500) evs /\
  count is_delay evs = waits env (S k) 20 /\
  (forall i, (i < count is_delay evs)%nat -> link env (S k + i) <> WL_CONNECTED) /\
  ((count is_delay evs < 20)%nat ->
     link env (S k + count is_delay evs) = WL_CONNECTED) /\
  last evs (EvDelay 0) = verdict last_polled /\
  (last_polled = WL_CONNECTED ->
     last evs (EvDelay 0) = EvPrintln (SStr (LF ++ "Reconnected!"))) /\
  (last_polled <> WL_CONNECTED ->
     last evs (EvDelay 0) = EvPrintln (SStr (LF ++ "Reconnection failed."))) /\
  ((forall i, link env (k + i) <> WL_CONNECTED) ->
     count is_delay evs = 20%nat /\ count is_poll evs = 23%nat /\
     last evs (EvDelay 0) = EvPrintln (SStr (LF ++ "Reconnection failed."))) /\
  globals w' = globals w /\
  checkWiFi env w = (tt, w').
Proof.
  intros Hdown k w' evs last_polled.
  destruct (checkWiFi_events_down env w Hdown) as (Hevs & Hlink & Hglobals).
  fold k in Hevs, Hlink. fold w' in Hevs, Hlink, Hglobals. fold evs in Hevs.
  set (n := waits env (S k) 20) in *.
  assert (Hlast_polled : last_polled = link env (S (S k) + n)).
  { unfold last_polled. rewrite Hlink. f_equal. lia. }
  destruct (count_wait_events env n (S k)) as (Hd & Hp & _ & _ & Hall).
  assert (Hdelays : count is_delay evs = n).
  { rewrite Hevs, !count_app, Hd, (proj1 (count_verdict _ _)). cbn. lia. }
  assert (Hpolls : count is_poll evs = (3 + n)%nat).
  { rewrite Hevs, !count_app, Hp, (proj1 (proj2 (count_verdict _ _))). cbn. lia. }
  assert (Hlast : last evs (EvDelay 0) = verdict last_polled).
  { rewrite Hevs, Hlast_polled, !app_assoc. apply last_two. }
  pose proof (waits_le env 20 (S k)) as Hle. fold n in Hle.
  destruct (waits_stops env 20 (S k)) as [Hbefore Hat]. fold n in Hbefore, Hat.
  assert (Hhalf : Forall (fun e => is_delay e = true -> e = EvDelay 500) evs).
  { rewrite Hevs. repeat (constructor; [cbn; intros; discriminate |]).
    apply Forall_app. split; [exact Hall |].
    constructor; [cbn; intros; discriminate |].
    constructor; [| constructor].
    unfold verdict. destruct (wl_status_eq_dec _ _); cbn; intros; discriminate. }
  assert (Hok : last_polled = WL_CONNECTED ->
                last evs (EvDelay 0) = EvPrintln (SStr (LF ++ "Reconnected!"))).
  { intros Hup. rewrite Hlast. unfold verdict.
    destruct (wl_status_eq_dec last_polled WL_CONNECTED); [reflexivity | contradiction]. }
  assert (Hko : last_polled <> WL_CONNECTED ->
                last evs (EvDelay 0) = EvPrintln (SStr (LF ++ "Reconnection failed."))).
  { intros Hnot. rewrite Hlast. unfold verdict.
    destruct (wl_status_eq_dec last_polled WL_CONNECTED); [contradiction | reflexivity]. }
  assert (Hnever : (forall i, link env (k + i) <> WL_CONNECTED) ->
                   n = 20%nat /\ last_polled <> WL_CONNECTED).
  { intros Hgone. split.
    - apply waits_never_up. intros i _.
      replace (S k + i)%nat with (k + S i)%nat by lia. apply Hgone.
    - rewrite Hlast_polled.
      replace (S (S k) + n)%nat with (k + (2 + n))%nat by lia. apply Hgone. }
  assert (Hvoid : checkWiFi env w = (tt, w')).
  { subst w'. unfold exec. destruct (checkWiFi env w) as [[] w1]. reflexivity. }
  rewrite Hdelays, Hpolls.
  split; [lia |]. split; [lia |]. split; [exact Hhalf |]. split; [reflexivity |].
  split; [exact Hbefore |]. split; [exact Hat |]. split; [exact Hlast |].
  split; [exact Hok |]. split; [exact Hko |].
  split; [| split; [exact Hglobals | exact Hvoid]].
  intros Hgone. destruct (Hnever Hgone) as [Hn Hstill].
  split; [exact Hn |]. split; [lia |]. apply Hko, Hstill.
Qed.

Lemma checkWiFi_bounded_witness :
  link env_down (n_link (cursors boot)) <> WL_CONNECTED /\
  count is_delay (events_since boot (exec checkWiFi env_down boot)) = 20%nat /\
  count is_poll (events_since boot (exec checkWiFi env_down boot)) = 23%nat.
Proof.
  split; [discriminate |].
  destruct (checkWiFi_bounded env_down boot) as (_ & _ & _ & _ & _ & _ & _ & _ & _ & H & _);
    [discriminate |].
  destruct H as (Hd & Hp & _); [intros i; discriminate |].
  split; [exact Hd | exact Hp].
Defined.

(** C5 as worded fails: [checkWiFi] is a [void] function, so the caller is
    handed the same value whether the reconnection failed or succeeded, and
    nothing computed from that value can tell the two runs apart. *)
Lemma checkWiFi_returns_no_indication :
  last (trace (exec checkWiFi env_down boot)) (EvDelay 0)
    = EvPrintln (SStr (LF ++ "Reconnection failed.")) /\
  last (trace (exec checkWiFi env_back boot)) (EvDelay 0)
    = EvPrintln (SStr (LF ++ "Reconnected!")) /\
  ~ (exists failed : unit -> bool,
       failed (fst (checkWiFi env_down boot)) = true /\
       failed (fst (checkWiFi env_back boot)) = false).
Proof.
  split; [vm_compute; reflexivity |]. split; [vm_compute; reflexivity |].
  intros (failed & Hdown & Hback).
  destruct (fst (checkWiFi env_down boot)), (fst (checkWiFi env_back boot)).
  congruence.
Qed.

(** ** One pass of [loop] *)

Lemma count_POST_le_transport (tr : list event) :
  (count is_POST tr <= count is_transport tr)%nat.
Proof.
  unfold count. induction tr as [| e tr IH]; [apply Nat.le_refl |].
  destruct e; cbn in *; lia.
Qed.

Lemma count_checkWiFi_events (env : Env) (k : nat) :
  count is_transport (checkWiFi_events env k) = 0%nat.
Proof.
  unfold checkWiFi_events.
  destruct (wl_status_eq_dec (link env k) WL_CONNECTED); [reflexivity |].
  rewrite !count_app.
  destruct (count_wait_events env (waits env (S k) 20) (S k)) as (_ & _ & _ & Ht & _).
  rewrite Ht, (proj2 (proj2 (proj2 (count_verdict _ _)))). reflexivity.
Qed.

(** The calls of lines 84-129 from state [w]. *)
Lemma events_before_report (env : Env) (w : Node) :
  let r := adc env (n_adc (cursors w)) in
  let u := echo env (n_echo (cursors w)) in
  let R := at_report_time env w in
  events_since w R =
    [EvAnalogRead RAIN_AO r] ++ ranging_events u ++ summary_events (sampled r u)
    ++ checkWiFi_events env (n_link (cursors w)) /\
  count is_transport (events_since w R) = 0%nat /\
  globals R = sampled r u /\
  n_heap (cursors R) = n_heap (cursors w) /\
  n_post (cursors R) = n_post (cursors w).
Proof.
  intros r u R.
  assert (Hevs : events_since w R =
    [EvAnalogRead RAIN_AO r] ++ ranging_events u ++ summary_events (sampled r u)
    ++ checkWiFi_events env (n_link (cursors w))).
  { apply events_since_app. subst R. rewrite at_report_time_run. reflexivity. }
  split; [exact Hevs |]. split.
  - rewrite Hevs, !count_app, count_checkWiFi_events. reflexivity.
  - subst R. rewrite at_report_time_run. repeat split.
Qed.

(** A pass is lines 84-129, then lines 131-150, then the sleep. *)
Lemma loop_events (env : Env) (w : Node) :
  let R := at_report_time env w in
  let w' := exec loop env w in
  events_since w w' = events_since w R ++ send_events env R ++ [EvDelay 4000] /\
  globals w' = globals R /\
  cursors w' = cursors (exec loop_send env R).
Proof.
  intros R w'. subst w'. rewrite loop_run. fold R. cbn [globals cursors trace].
  split; [| split; reflexivity].
  destruct (events_before_report env w) as (Hevs & _). fold R in Hevs.
  apply events_since_app. cbn [trace].
  assert (Htrace : trace R = trace w ++ events_since w R).
  { rewrite Hevs. subst R. rewrite at_report_time_run. reflexivity. }
  rewrite Htrace at 1. rewrite <- app_assoc. reflexivity.
Qed.

Lemma summary_in_pass (env : Env) (w : Node) :
  let g := sampled (adc env (n_adc (cursors w))) (echo env (n_echo (cursors w))) in
  exists before after,
    events_since w (exec loop env w) = before ++ summary_events g ++ after.
Proof.
  intros g. destruct (loop_events env w) as (Hevs & _).
  destruct (events_before_report env w) as (Hpre & _).
  rewrite Hevs, Hpre. fold g.
  exists ([EvAnalogRead RAIN_AO (adc env (n_adc (cursors w)))]
          ++ ranging_events (echo env (n_echo (cursors w)))).
  exists (checkWiFi_events env (n_link (cursors w))
          ++ send_events env (at_report_time env w) ++ [EvDelay 4000]).
  rewrite <- !app_assoc. reflexivity.
Qed.


(** Lines 131-150 from a state [s], by the answer of the poll. *)
Lemma loop_send_down (env : Env) (s : Node) :
  link env (n_link (cursors s)) <> WL_CONNECTED ->
  send_events env s = [EvWiFiStatus (link env (n_link (cursors s)))] /\
  cursors (exec loop_send env s) = next_link (cursors s).
Proof.
  intros Hdown. unfold send_events, exec. rewrite loop_send_run. cbn [snd].
  destruct (wl_status_eq_dec (link env (n_link (cursors s))) WL_CONNECTED);
    [contradiction | split; reflexivity].
Qed.

Lemma loop_send_up (env : Env) (s : Node) :
  link env (n_link (cursors s)) = WL_CONNECTED ->
  send_events env s =
    [EvWiFiStatus WL_CONNECTED]
    ++ report_events (payload_of env (globals s)) (collector env (n_post (cursors s))) /\
  cursors (exec loop_send env s) = next_post (next_heap (next_link (cursors s))).
Proof.
  intros Hup. unfold send_events, exec. rewrite loop_send_run. cbn [snd].
  rewrite Hup. split; reflexivity.
Qed.


Lemma fields_next_link (c : Cursors) :
  n_heap (next_link c) = n_heap c /\ n_post (next_link c) = n_post c.
Proof. split; reflexivity. Qed.

(** C6.  When the link is down as [loop] reaches the report (line 131), the
    pass has printed the whole summary (reading, intensity, distance, flood
    status of this pass), touches neither the secure client nor the HTTP
    client, so posts nothing, and ends with the 4 s sleep. *)
Theorem link_down_cycle (env : Env) (w : Node) :
  let R := at_report_time env w in
  link env (n_link (cursors R)) <> WL_CONNECTED ->
  let w' := exec loop env w in
  let evs := events_since w w' in
  let g := sampled (adc env (n_adc (cursors w))) (echo env (n_echo (cursors w))) in
  globals w' = g /\
  (exists before after, evs = before ++ summary_events g ++ after) /\
  evs = events_since w R
        ++ [EvWiFiStatus (link env (n_link (cursors R))); EvDelay 4000] /\
  count is_transport evs = 0%nat /\
  count is_POST evs = 0%nat /\
  n_heap (cursors w') = n_heap (cursors w) /\
  n_post (cursors w') = n_post (cursors w) /\
  last evs (EvDelay 0) = EvDelay 4000.
Proof.
  intros R Hdown w' evs g.
  destruct (loop_events env w) as (Hevs & Hglobals & Hcursors).
  destruct (events_before_report env w) as (_ & Hnone & Hsampled & Hheap & Hpost).
  fold R in Hevs, Hglobals, Hcursors, Hnone, Hsampled, Hheap, Hpost.
  fold w' in Hevs, Hglobals, Hcursors. fold evs in Hevs. fold g in Hsampled.
  destruct (loop_send_down env R Hdown) as (Hsend & Hnext).
  pose proof (summary_in_pass env w) as Hsummary.
  cbv zeta in Hsummary. fold w' evs g in Hsummary.
  clearbody R w' evs g.
  rewrite Hsend in Hevs. cbn [app] in Hevs.
  assert (Htransport : count is_transport evs = 0%nat).
  { rewrite Hevs, count_app, Hnone. reflexivity. }
  split; [congruence |].
  split; [exact Hsummary |].
  split; [exact Hevs |].
  split; [exact Htransport |].
  split; [pose proof (count_POST_le_transport evs); lia |].
  split; [| split].
  - rewrite Hcursors, Hnext, (proj1 (fields_next_link _)). exact Hheap.
  - rewrite Hcursors, Hnext, (proj2 (fields_next_link _)). exact Hpost.
  - rewrite Hevs. apply last_two.
Qed.

Lemma link_down_cycle_witness :
  link env_down (n_link (cursors (at_report_time env_down boot))) <> WL_CONNECTED /\
  count is_POST (events_since boot (exec loop env_down boot)) = 0%nat /\
  last (events_since boot (exec loop env_down boot)) (EvDelay 0) = EvDelay 4000.
Proof.
  split; [discriminate |].
  destruct (link_down_cycle env_down boot) as (_ & _ & _ & _ & Hpost & _ & _ & Hlast);
    [discriminate |].
  split; [exact Hpost | exact Hlast].
Defined.

Lemma append_assoc (a b c : string) : ((a ++ b) ++ c = a ++ (b ++ c))%string.
Proof. induction a as [| ch a IH]; cbn; [reflexivity | rewrite IH; reflexivity]. Qed.

(** The request body is the flat JSON object of the five report fields. *)
Lemma payload_is_flat_record (env : Env) (g : Globals) :
  payload_of env g = render_object (report_fields env g).
Proof.
  unfold payload_of, render_object, report_fields, render_member, render_scalar.
  cbn [map String.concat fst snd]. rewrite !append_assoc. reflexivity.
Qed.

(** ** The pass with the heap consulted *)

Ltac run_or_leave :=
  cbv [bindX retX lift new_or_leave];
  cbv [bind ret call ask exec read_globals write_globals
       analogRead pulseIn WiFi_status new_WiFiClientSecure http_POST
       digitalWrite delayMicroseconds delay Serial_print Serial_println
       WiFi_disconnect WiFi_begin client_setInsecure http_begin http_addHeader
       http_end delete_client fst snd globals cursors trace];
  rewrite <- ?app_assoc; cbn [app].

(** Lines 131-150 from a state [s], with the heap consulted. *)
Lemma loop_send_or_leave_run (env : Env) (s : Node) :
  loop_send_or_leave env s =
    if wl_status_eq_dec (link env (n_link (cursors s))) WL_CONNECTED then
      if heap env (n_heap (cursors s)) then (Returns tt, exec loop_send env s)
      else
        (Leaves,
         {| globals := globals s;
            cursors := next_heap (next_link (cursors s));
            trace := trace s ++ [EvWiFiStatus WL_CONNECTED; EvNewClient false] |})
    else (Returns tt, exec loop_send env s).
Proof.
  unfold exec. rewrite loop_send_run. cbn [snd].
  unfold loop_send_or_leave. destruct s as [g c tr]. run_or_leave.
  destruct (wl_status_eq_dec (link env (n_link c)) WL_CONNECTED) as [Hup | Hdown];
    [| reflexivity].
  change (n_heap (next_link c)) with (n_heap c).
  destruct (heap env (n_heap c)); run_or_leave; rewrite ?Hup; reflexivity.
Qed.

Lemma loop_or_leave_run (env : Env) (w : Node) :
  let R := at_report_time env w in
  loop_or_leave env w =
    match loop_send_or_leave env R with
    | (Returns _, w1) => (Returns tt, exec (delay 4000) env w1)
    | (Leaves, w1) => (Leaves, w1)
    end.
Proof.
  intros R. subst R. unfold loop_or_leave, at_report_time, exec, bind, bindX, lift.
  destruct (loop_sample env w) as [[] w1].
  destruct (checkWiFi env w1) as [[] w2]. cbn [snd].
  destruct (loop_send_or_leave env w2) as [[[] |] w3]; [| reflexivity].
  destruct (delay 4000 env w3) as [[] w4]. reflexivity.
Qed.





Lemma waits_ext (env env' : Env) (m : nat) :
  (forall i, link env i = link env' i) ->
  forall k, waits env k m = waits env' k m.
Proof.
  intros Hlink. induction m as [| m IH]; intros k; cbn [waits]; [reflexivity |].
  rewrite Hlink, IH. reflexivity.
Qed.

Lemma wait_events_ext (env env' : Env) (n : nat) :
  (forall i, link env i = link env' i) ->
  forall k, wait_events env k n = wait_events env' k n.
Proof.
  intros Hlink. induction n as [| n IH]; intros k; cbn [wait_events];
    rewrite Hlink; [reflexivity | rewrite IH; reflexivity].
Qed.

(** Lines 84-129 consult the ADC, the echo line and the link, and nothing
    else of the environment. *)
Lemma at_report_time_ext (env env' : Env) (w : Node) :
  (forall i, adc env i = adc env' i) ->
  (forall i, echo env i = echo env' i) ->
  (forall i, link env i = link env' i) ->
  at_report_time env w = at_report_time env' w.
Proof.
  intros Hadc Hecho Hlink. rewrite !at_report_time_run.
  unfold checkWiFi_polls, checkWiFi_events.
  rewrite Hadc, Hecho, (waits_ext env env' 20 Hlink), Hlink.
  rewrite (wait_events_ext env env' _ Hlink), Hlink. reflexivity.
Qed.

(** ** A pass in which the allocation fails *)

(** Before line 131 the only delays are the waits of [checkWiFi]. *)
Lemma delays_before_report (env : Env) (w : Node) :
  Forall (fun e => is_delay e = true -> e = EvDelay 500)
         (events_since w (at_report_time env w)).
Proof.
  destruct (events_before_report env w) as (Hpre & _). rewrite Hpre.
  repeat (constructor; [cbn; intros; discriminate |]).
  unfold checkWiFi_events.
  destruct (wl_status_eq_dec (link env (n_link (cursors w))) WL_CONNECTED).
  - constructor; [cbn; intros; discriminate | constructor].
  - repeat (constructor; [cbn; intros; discriminate |]).
    apply Forall_app. split.
    + apply (count_wait_events env (waits env (S (n_link (cursors w))) 20)
               (S (n_link (cursors w)))).
    + constructor; [cbn; intros; discriminate |].
      constructor; [| constructor].
      unfold verdict. destruct (wl_status_eq_dec _ _); cbn; intros; discriminate.
Qed.

Lemma trace_at_report_time (env : Env) (w : Node) :
  trace (at_report_time env w) = trace w ++ events_since w (at_report_time env w).
Proof.
  assert (H : exists evs, trace (at_report_time env w) = trace w ++ evs).
  { rewrite at_report_time_run. cbn [trace]. eexists. reflexivity. }
  destruct H as (evs & H). rewrite (events_since_app _ _ _ H). exact H.
Qed.

(** The pass that meets a failed allocation with the link up. *)
Lemma loop_or_leave_leaves (env : Env) (w : Node) :
  link env (n_link (cursors (at_report_time env w))) = WL_CONNECTED ->
  heap env (n_heap (cursors w)) = false ->
  loop_or_leave env w =
    (Leaves,
     {| globals := globals (at_report_time env w);
        cursors := next_heap (next_link (cursors (at_report_time env w)));
        trace := trace (at_report_time env w)
                 ++ [EvWiFiStatus WL_CONNECTED; EvNewClient false] |}).
Proof.
  intros Hup Hheap.
  destruct (events_before_report env w) as (_ & _ & _ & HheapR & _).
  rewrite loop_or_leave_run. cbv zeta. rewrite loop_send_or_leave_run.
  rewrite HheapR, Hheap.
  destruct (wl_status_eq_dec (link env (n_link (cursors (at_report_time env w))))
              WL_CONNECTED); [| contradiction].
  reflexivity.
Qed.

Lemma leaves_facts (p : ending unit * Node) (w R : Node) (g : Globals)
    (c : Cursors) (more : list event) :
  p = (Leaves, {| globals := g; cursors := c; trace := trace R ++ more |}) ->
  trace R = trace w ++ events_since w R ->
  fst p = Leaves /\
  events_since w (snd p) = events_since w R ++ more /\
  globals (snd p) = g.
Proof.
  intros Hp H. subst p. cbn [fst snd globals].
  split; [reflexivity |]. split; [| reflexivity].
  apply events_since_app. cbn [trace].
  rewrite H at 1. rewrite <- app_assoc. reflexivity.
Qed.

Lemma leaving_pass (env : Env) (w : Node) :
  link env (n_link (cursors (at_report_time env w))) = WL_CONNECTED ->
  heap env (n_heap (cursors w)) = false ->
  fst (loop_or_leave env w) = Leaves /\
  events_since w (snd (loop_or_leave env w)) =
    events_since w (at_report_time env w)
    ++ [EvWiFiStatus WL_CONNECTED; EvNewClient false] /\
  globals (snd (loop_or_leave env w)) =
    sampled (adc env (n_adc (cursors w))) (echo env (n_echo (cursors w))).
Proof.
  intros Hup Hheap.
  destruct (events_before_report env w) as (_ & _ & Hsampled & _).
  destruct (leaves_facts _ w _ _ _ _ (loop_or_leave_leaves env w Hup Hheap)
              (trace_at_report_time env w)) as (Hends & Hevs & Hg).
  split; [exact Hends |]. split; [exact Hevs |].
  exact (eq_trans Hg Hsampled).
Qed.

(** C9, against the code.  The guard of line 133 expects a null client, but
    the plain new-expression of line 132 never yields one.  In a pass with
    the link up at line 131 and no memory for the client, the run leaves
    [loop] at the allocation: that is its last call, nothing is posted or
    printed after it, and the 4 s sleep is never reached, every delay of the
    pass being a 500 ms wait of [checkWiFi].  The readings, their
    classification and the summary printed before are those of the pass. *)
Theorem allocation_failure_leaves_loop (env : Env) (w : Node) :
  let R := at_report_time env w in
  link env (n_link (cursors R)) = WL_CONNECTED ->
  heap env (n_heap (cursors w)) = false ->
  let w' := snd (loop_or_leave env w) in
  let evs := events_since w w' in
  let g := sampled (adc env (n_adc (cursors w))) (echo env (n_echo (cursors w))) in
  fst (loop_or_leave env w) = Leaves /\
  evs = events_since w R ++ [EvWiFiStatus WL_CONNECTED; EvNewClient false] /\
  last evs (EvDelay 0) = EvNewClient false /\
  ~ In (EvDelay 4000) evs /\
  count is_POST evs = 0%nat /\
  globals w' = g /\
  (exists earlier, events_since w R = earlier ++ summary_events g
                                      ++ checkWiFi_events env (n_link (cursors w))).
Proof.
  intros R Hup Hheap w' evs g.
  destruct (leaving_pass env w Hup Hheap) as (Hend & Hevs & Hg).
  destruct (events_before_report env w) as (Hpre & Hnone & _).
  pose proof (delays_before_report env w) as Hdelays.
  pose proof (count_POST_le_transport (events_since w (at_report_time env w))) as Hposts.
  fold R in Hevs, Hpre, Hnone, Hdelays, Hposts. fold w' in Hevs, Hg. fold evs in Hevs.
  fold g in Hg, Hpre.
  set (before := events_since w R) in *.
  clearbody w' evs before R g.
  split; [exact Hend |].
  split; [exact Hevs |].
  split; [rewrite Hevs; apply last_two |].
  split.
  { rewrite Hevs. intros Hin. apply in_app_or in Hin. destruct Hin as [Hin | Hin].
    - rewrite Forall_forall in Hdelays. specialize (Hdelays _ Hin eq_refl).
      discriminate Hdelays.
    - cbn in Hin. intuition discriminate. }
  split; [rewrite Hevs, count_app; rewrite Hnone in Hposts; cbn; lia |].
  split; [exact Hg |].
  exists ([EvAnalogRead RAIN_AO (adc env (n_adc (cursors w)))]
          ++ ranging_events (echo env (n_echo (cursors w)))).
  rewrite Hpre. rewrite <- !app_assoc. reflexivity.
Qed.

Lemma allocation_failure_leaves_loop_witness :
  link env_no_memory (n_link (cursors (at_report_time env_no_memory boot)))
    = WL_CONNECTED /\
  heap env_no_memory (n_heap (cursors boot)) = false /\
  fst (loop_or_leave env_no_memory boot) = Leaves /\
  last (events_since boot (snd (loop_or_leave env_no_memory boot))) (EvDelay 0)
    = EvNewClient false.
Proof.
  split; [reflexivity |]. split; [reflexivity |].
  destruct (allocation_failure_leaves_loop env_no_memory boot eq_refl eq_refl)
    as (Hleaves & _ & Hlast & _).
  split; [exact Hleaves | exact Hlast].
Defined.

(** C3.  With a reading of 2400 or more the flood status is NORMAL for every
    distance, be it ever so small, in the ladder and in the globals a pass of
    [loop] leaves; a reading of 3700 with an obstacle at 5 cm is NO RAIN and
    NORMAL. *)
Theorem no_alert_without_rain (r : Z) (d : spec_float) :
  2400 <= r ->
  flood_status_of r d = "NORMAL" /\
  (forall (env : Env) (w : Node),
     adc env (n_adc (cursors w)) = r ->
     floodStatus (globals (exec loop env w)) = "NORMAL") /\
  rain_intensity_of 3700 = "NO RAIN" /\
  flood_status_of 3700 (Binary32.of_Z 5) = "NORMAL".
Proof.
  intros Hr. split; [apply flood_status_normal; exact Hr |].
  split; [| split; [reflexivity | apply flood_status_normal; lia]].
  intros env w Hadc.
  destruct (loop_events env w) as (_ & Hg & _).
  destruct (events_before_report env w) as (_ & _ & Hsampled & _).
  rewrite Hg, Hsampled, Hadc. unfold sampled. cbn [floodStatus].
  apply flood_status_normal. exact Hr.
Qed.

Lemma no_alert_without_rain_witness :
  2400 <= 3700 /\
  floodStatus (globals (exec loop env_dry boot)) = "NORMAL" /\
  rainIntensity (globals (exec loop env_dry boot)) = "NO RAIN".
Proof.
  split; [lia |].
  destruct (no_alert_without_rain 3700 (Binary32.of_Z 5)) as (_ & Hloop & _); [lia |].
  split; [apply Hloop; reflexivity | vm_compute; reflexivity].
Defined.

(** ** The distance sampler: [getUltrasonic] *)

(** The literals are the correctly rounded constants. *)
Lemma literals_nearest :
  Binary64.lit_0_034 = Binary64.div (Binary64.of_Z 34) (Binary64.of_Z 1000) /\
  Binary64.lit_2_0 = Binary64.of_Z 2.
Proof. split; vm_compute; reflexivity. Qed.

Lemma all_from_spec (p : Z -> bool) (n : nat) :
  forall lo,
    all_from p lo n = true ->
    forall u, lo <= u < lo + Z.of_nat n -> p u = true.
Proof.
  induction n as [| n IH]; intros lo Hall u Hu; [lia |].
  cbn [all_from] in Hall. apply andb_true_iff in Hall. destruct Hall as [Hlo Hrest].
  destruct (Z.eq_dec u lo) as [-> | Hne]; [exact Hlo |].
  apply (IH (Z.succ lo) Hrest). lia.
Qed.

(** Every pulse width the 30 ms timeout admits, checked by evaluation. *)
Lemma accurate_upto_30000 : all_from accurate 1 (Z.to_nat 30000) = true.
Proof. vm_cast_no_check (@eq_refl bool true). Qed.

Lemma accurate_in_range (u : Z) : 0 < u <= 30000 -> accurate u = true.
Proof.
  intros Hu. apply (all_from_spec accurate _ 1 accurate_upto_30000). lia.
Qed.

Lemma long_of_unsigned_small (u : Z) :
  0 <= u < 2 ^ 31 -> long_of_unsigned u = u.
Proof.
  intros Hu. unfold long_of_unsigned.
  change (2 ^ 32) with 4294967296. change (2 ^ 31) with 2147483648 in *.
  rewrite Z.mod_small by lia.
  destruct (Z.ltb_spec u 2147483648); [reflexivity | lia].
Qed.

Lemma long_of_unsigned_zero (u : Z) :
  0 <= u < 2 ^ 32 -> (long_of_unsigned u = 0 <-> u = 0).
Proof.
  intros Hu. unfold long_of_unsigned.
  change (2 ^ 32) with 4294967296 in *. change (2 ^ 31) with 2147483648.
  rewrite Z.mod_small by lia.
  destruct (Z.ltb_spec u 2147483648); lia.
Qed.

(** C4.  [getUltrasonic] returns the [float] 400 when [pulseIn] reports 0
    (no echo within the 30 ms timeout), a plain finite value and no error;
    otherwise it returns (duration * 0.034) / 2.0, computed in [double] and
    rounded to [float], which for pulses of 1 to 30000 us is within a
    relative 2^-23 of the exact 0.017 * duration. *)
Theorem getUltrasonic_distance (env : Env) (w : Node) :
  let u := echo env (n_echo (cursors w)) in
  let result := fst (getUltrasonic env w) in
  0 <= u < 2 ^ 32 ->
  (u = 0 ->
     result = Binary32.of_Z 400 /\
     exists q, float_value result = Some q /\ (q == 400)%Q) /\
  (u <> 0 ->
     result =
       Binary32.of_double
         (Binary64.div
            (Binary64.mul (Binary64.of_Z (long_of_unsigned u)) Binary64.lit_0_034)
            Binary64.lit_2_0)) /\
  (0 < u <= 30000 ->
     exists q, float_value result = Some q /\
       (Qabs (q - (17 * u # 1000)) <= (17 * u # 1000) * (1 # 2 ^ 23))%Q) /\
  duration (globals (exec getUltrasonic env w)) = long_of_unsigned u /\
  events_since w (exec getUltrasonic env w) = ranging_events u.
Proof.
  intros u result Hu.
  assert (Hresult : result = distance_of_duration (long_of_unsigned u)).
  { subst result u. rewrite getUltrasonic_run. reflexivity. }
  assert (Hduration : duration (globals (exec getUltrasonic env w)) = long_of_unsigned u).
  { subst u. unfold exec. rewrite getUltrasonic_run. reflexivity. }
  assert (Hevents : events_since w (exec getUltrasonic env w) = ranging_events u).
  { apply events_since_app. subst u. unfold exec. rewrite getUltrasonic_run. reflexivity. }
  clearbody result u.
  split; [| split; [| split; [| split; assumption]]].
  - intros ->. rewrite Hresult. split; [reflexivity |].
    eexists. split; [reflexivity |]. vm_compute. reflexivity.
  - intros Hnz. rewrite Hresult. unfold distance_of_duration.
    destruct (Z.eqb_spec (long_of_unsigned u) 0) as [Hz | _]; [| reflexivity].
    exfalso. apply Hnz. apply (proj1 (long_of_unsigned_zero u Hu) Hz).
  - intros Hrange. rewrite Hresult.
    rewrite long_of_unsigned_small by (change (2 ^ 31) with 2147483648; lia).
    pose proof (accurate_in_range u Hrange) as Hacc. unfold accurate in Hacc.
    destruct (float_value (distance_of_duration u)) as [q |]; [| discriminate].
    exists q. split; [reflexivity |]. apply Qle_bool_iff. exact Hacc.
Qed.

Lemma getUltrasonic_distance_witness :
  0 <= echo env_no_echo (n_echo (cursors boot)) < 2 ^ 32 /\
  fst (getUltrasonic env_no_echo boot) = S754_finite false 13107200 (-15).
Proof.
  split; [split; [apply Z.le_refl | reflexivity] |].
  destruct (getUltrasonic_distance env_no_echo boot) as (Htimeout & _);
    [split; [apply Z.le_refl | reflexivity] |].
  destruct (Htimeout eq_refl) as (H400 & _). exact H400.
Defined.

(** ** Power-on: [setup] *)

Lemma setup_wait_run (env : Env) (k : nat) :
  forall (fuel : nat) (b : Boot),
    (forall i, (i < k)%nat -> link env (boot_polls b + i) <> WL_CONNECTED) ->
    link env (boot_polls b + k) = WL_CONNECTED ->
    (k < fuel)%nat ->
    setup_wait fuel env b =
      Some {| boot_polls := S (boot_polls b + k);
              boot_trace := boot_trace b
                            ++ map BootCall (wait_events env (boot_polls b) k) |}.
Proof.
  induction k as [| k IH]; intros fuel b Hdown Hup Hfuel;
    (destruct fuel as [| fuel]; [lia |]); cbn [setup_wait boot_status].
  - rewrite Nat.add_0_r in Hup.
    destruct (wl_status_eq_dec (link env (boot_polls b)) WL_CONNECTED);
      [| contradiction].
    rewrite Nat.add_0_r. reflexivity.
  - destruct (wl_status_eq_dec (link env (boot_polls b)) WL_CONNECTED) as [Hnow | _].
    + exfalso. apply (Hdown 0%nat); [lia |]. rewrite Nat.add_0_r. exact Hnow.
    + rewrite IH; cbn [boot_emit boot_polls boot_trace].
      * rewrite <- !app_assoc. cbn [app wait_events map].
        do 2 f_equal. lia.
      * intros i Hi. replace (S (boot_polls b) + i)%nat
          with (boot_polls b + S i)%nat by lia. apply Hdown. lia.
      * replace (S (boot_polls b) + k)%nat with (boot_polls b + S k)%nat by lia.
        exact Hup.
      * lia.
Qed.

Lemma setup_wait_blocks (env : Env) (fuel : nat) :
  forall b : Boot,
    (forall i, link env (boot_polls b + i) <> WL_CONNECTED) ->
    setup_wait fuel env b = None.
Proof.
  induction fuel as [| fuel IH]; intros b Hdown; [reflexivity |].
  cbn [setup_wait boot_status].
  destruct (wl_status_eq_dec (link env (boot_polls b)) WL_CONNECTED) as [Hnow | _].
  - exfalso. apply (Hdown 0%nat). rewrite Nat.add_0_r. exact Hnow.
  - apply IH. cbn [boot_emit boot_polls]. intros i.
    replace (S (boot_polls b) + i)%nat with (boot_polls b + S i)%nat by lia.
    apply Hdown.
Qed.

(** A wait that ends has seen the link connected, at its last poll only. *)
Lemma setup_wait_inv (env : Env) (fuel : nat) :
  forall b b' : Boot,
    setup_wait fuel env b = Some b' ->
    exists k,
      (k < fuel)%nat /\
      (forall i, (i < k)%nat -> link env (boot_polls b + i) <> WL_CONNECTED) /\
      link env (boot_polls b + k) = WL_CONNECTED.
Proof.
  induction fuel as [| fuel IH]; intros b b' Hrun; [discriminate Hrun |].
  cbn [setup_wait boot_status] in Hrun.
  destruct (wl_status_eq_dec (link env (boot_polls b)) WL_CONNECTED) as [Hnow | Hnot].
  - exists 0%nat. split; [lia |]. split; [intros i Hi; lia |].
    rewrite Nat.add_0_r. exact Hnow.
  - apply IH in Hrun. cbn [boot_emit boot_polls] in Hrun.
    destruct Hrun as (k & Hk & Hdown & Hup). exists (S k).
    split; [lia |]. split.
    + intros [| i] Hi; [rewrite Nat.add_0_r; exact Hnot |].
      replace (boot_polls b + S i)%nat with (S (boot_polls b) + i)%nat by lia.
      apply Hdown. lia.
    + replace (boot_polls b + S k)%nat with (S (boot_polls b) + k)%nat by lia.
      exact Hup.
Qed.

Lemma setup_unfold (fuel : nat) (env : Env) (ip : Z) (b : Boot) :
  setup fuel env ip b =
    match setup_wait fuel env
            {| boot_polls := boot_polls b;
               boot_trace := boot_trace b ++ setup_prologue |} with
    | None => None
    | Some b1 =>
        Some {| boot_polls := boot_polls b1;
                boot_trace := boot_trace b1 ++ setup_epilogue ip |}
    end.
Proof.
  unfold setup, boot_emit. cbn [boot_polls boot_trace].
  rewrite <- !app_assoc. cbn [app]. fold setup_prologue.
  destruct (setup_wait fuel env _) as [b1 |]; [| reflexivity].
  rewrite <- !app_assoc. reflexivity.
Qed.

(** X1.  When the link first reports connected at the poll after [k] failed
    ones, [setup] returns, whatever bound above [k] is put on its loop: it
    has configured the pins and started the radio, waited [k] times 500 ms,
    printing a dot each time, then printed the connection banner and the
    address and slept 2 s. *)
Theorem setup_returns_once_connected (env : Env) (ip : Z) (b : Boot) (k fuel : nat) :
  (forall i, (i < k)%nat -> link env (boot_polls b + i) <> WL_CONNECTED) ->
  link env (boot_polls b + k) = WL_CONNECTED ->
  (k < fuel)%nat ->
  setup fuel env ip b =
    Some {| boot_polls := S (boot_polls b + k);
            boot_trace := boot_trace b ++ setup_prologue
                          ++ map BootCall (wait_events env (boot_polls b) k)
                          ++ setup_epilogue ip |} /\
  count is_delay (wait_events env (boot_polls b) k) = k /\
  count is_poll (wait_events env (boot_polls b) k) = S k /\
  total_delay_ms (wait_events env (boot_polls b) k) = 500 * Z.of_nat k.
Proof.
  intros Hdown Hup Hfuel. split.
  - rewrite setup_unfold.
    rewrite (setup_wait_run env k fuel
               {| boot_polls := boot_polls b;
                  boot_trace := boot_trace b ++ setup_prologue |} Hdown Hup Hfuel).
    cbn [boot_polls boot_trace]. rewrite <- !app_assoc. reflexivity.
  - destruct (count_wait_events env k (boot_polls b)) as (Hd & Hp & _).
    split; [exact Hd |]. split; [exact Hp |].
    clear. generalize (boot_polls b). induction k as [| k IH]; intros p.
    + reflexivity.
    + cbn [wait_events total_delay_ms]. rewrite IH. lia.
Qed.

Lemma setup_returns_once_connected_witness :
  link env_back (boot_polls cold + 3) = WL_CONNECTED /\
  (3 < 10)%nat /\
  exists b, setup 10 env_back 0 cold = Some b /\ boot_polls b = 4%nat.
Proof.
  split; [reflexivity |]. split; [lia |].
  eexists. split.
  - apply (setup_returns_once_connected env_back 0 cold 3 10).
    + intros i Hi. destruct i as [| [| [| i]]]; [discriminate .. | lia].
    + reflexivity.
    + lia.
  - reflexivity.
Defined.

(** X2.  [setup] has no way out but the link: while no poll is answered
    connected it does not return, however many polls it is given, and a run
    that returns has seen every poll but its last answered otherwise. *)
Theorem setup_needs_the_link (env : Env) (ip : Z) (b : Boot) :
  ((forall i, link env (boot_polls b + i) <> WL_CONNECTED) ->
   forall fuel, setup fuel env ip b = None) /\
  (forall fuel b',
     setup fuel env ip b = Some b' ->
     exists k,
       (k < fuel)%nat /\
       (forall i, (i < k)%nat -> link env (boot_polls b + i) <> WL_CONNECTED) /\
       link env (boot_polls b + k) = WL_CONNECTED /\
       boot_polls b' = S (boot_polls b + k)).
Proof.
  split.
  - intros Hdown fuel. rewrite setup_unfold.
    rewrite setup_wait_blocks; [reflexivity | exact Hdown].
  - intros fuel b' Hrun. rewrite setup_unfold in Hrun.
    destruct (setup_wait fuel env _) as [b1 |] eqn:Hwait; [| discriminate Hrun].
    destruct (setup_wait_inv env fuel _ _ Hwait) as (k & Hk & Hdown & Hup).
    cbn [boot_polls] in Hdown, Hup.
    exists k. split; [exact Hk |]. split; [exact Hdown |]. split; [exact Hup |].
    rewrite (setup_wait_run env k fuel
               {| boot_polls := boot_polls b;
                  boot_trace := boot_trace b ++ setup_prologue |} Hdown Hup Hk) in Hwait.
    injection Hwait as <-. injection Hrun as <-. reflexivity.
Qed.

(** ** The distance over the pulse widths of the timeout *)

Lemma sweep_spec (n : nat) :
  forall prev lo,
    sweep prev lo n = true ->
    (forall u, lo <= u < lo + Z.of_nat n ->
       pulse_ok u (distance_of_duration u) = true /\
       prev <= units (distance_of_duration u)) /\
    (forall u u', lo <= u -> u <= u' -> u' < lo + Z.of_nat n ->
       units (distance_of_duration u) <= units (distance_of_duration u')).
Proof.
  induction n as [| n IH]; intros prev lo Hsweep; [split; intros; lia |].
  cbn [sweep] in Hsweep. cbv zeta in Hsweep.
  apply andb_true_iff in Hsweep. destruct Hsweep as [Hhere Hrest].
  apply andb_true_iff in Hhere. destruct Hhere as [Hok Hprev].
  apply Z.leb_le in Hprev.
  destruct (IH _ _ Hrest) as [Hall Hmono].
  assert (Hnext : forall u, Z.succ lo <= u < lo + Z.of_nat (S n) ->
                            units (distance_of_duration lo) <= units (distance_of_duration u)).
  { intros u Hu. apply Hall. lia. }
  split.
  - intros u Hu. destruct (Z.eq_dec u lo) as [-> | Hne]; [split; assumption |].
    destruct (Hall u) as [Hu_ok Hu_prev]; [lia |].
    split; [exact Hu_ok |]. specialize (Hnext u). lia.
  - intros u u' Hlo Hle Hhi. destruct (Z.eq_dec u lo) as [-> | Hne].
    + destruct (Z.eq_dec u' lo) as [-> | Hne']; [lia |]. apply Hnext. lia.
    + apply Hmono; lia.
Qed.

(** Every pulse width the 30 ms timeout admits, checked by evaluation. *)
Lemma sweep_upto_30000 : sweep 0 1 (Z.to_nat 30000) = true.
Proof. vm_cast_no_check (@eq_refl bool true). Qed.

Lemma pulse_ok_inv (u : Z) (d : spec_float) :
  pulse_ok u d = true ->
  exists m e,
    d = S754_finite false m e /\
    bounded Binary32.prec Binary32.emax m e = true /\
    Binary32.ltb d (Binary32.of_Z 10) = (u <=? 588) /\
    Binary32.ltb d (Binary32.of_Z 20) = (u <=? 1176) /\
    Binary32.ltb (Binary32.of_Z 400) d = (23530 <=? u).
Proof.
  unfold pulse_ok. destruct d as [| | | [] m e]; try discriminate.
  intros H.
  apply andb_true_iff in H. destruct H as [H H400].
  apply andb_true_iff in H. destruct H as [H H20].
  apply andb_true_iff in H. destruct H as [Hb H10].
  exists m, e. split; [reflexivity |]. split; [exact Hb |].
  split; [apply eqb_prop; exact H10 |].
  split; [apply eqb_prop; exact H20 | apply eqb_prop; exact H400].
Qed.

Lemma pulse_in_range (u : Z) :
  1 <= u <= 30000 -> pulse_ok u (distance_of_duration u) = true.
Proof.
  intros Hu. destruct (sweep_spec _ _ _ sweep_upto_30000) as [Hall _].
  apply Hall. lia.
Qed.

Lemma units_rise (u u' : Z) :
  1 <= u -> u <= u' -> u' <= 30000 ->
  units (distance_of_duration u) <= units (distance_of_duration u').
Proof.
  intros H1 H2 H3. destruct (sweep_spec _ _ _ sweep_upto_30000) as [_ Hmono].
  apply Hmono; lia.
Qed.

Lemma pass_globals (env : Env) (w : Node) :
  globals (exec loop env w) =
    sampled (adc env (n_adc (cursors w))) (echo env (n_echo (cursors w))).
Proof.
  destruct (loop_events env w) as (_ & Hg & _).
  destruct (events_before_report env w) as (_ & _ & Hsampled & _).
  rewrite Hg. exact Hsampled.
Qed.

(** X3.  For a pulse width the timeout admits, the flood status a pass
    leaves is decided by the reading and the pulse width alone: NORMAL from
    a reading of 2400 on; below that, CRITICAL FLOOD for an echo of 1 to
    588 us, FLOOD RISK for 589 to 1176 us, and RAIN ALERT for a longer echo
    or none. *)
Theorem flood_status_by_pulse_width (env : Env) (w : Node) :
  let r := adc env (n_adc (cursors w)) in
  let u := echo env (n_echo (cursors w)) in
  0 <= u <= 30000 ->
  floodStatus (globals (exec loop env w)) =
    if r <? 2400 then
      if u =? 0 then "RAIN ALERT"
      else if u <=? 588 then "CRITICAL FLOOD"
      else if u <=? 1176 then "FLOOD RISK"
      else "RAIN ALERT"
    else "NORMAL".
Proof.
  intros r u Hu. rewrite pass_globals. fold r u. clearbody r u.
  unfold sampled. cbn [floodStatus].
  rewrite long_of_unsigned_small by (change (2 ^ 31) with 2147483648; lia).
  unfold flood_status_of.
  destruct (Z.eqb_spec u 0) as [-> | Hnz].
  - destruct (r <? 2400); reflexivity.
  - destruct (pulse_ok_inv u _ (pulse_in_range u ltac:(lia)))
      as (m & e & _ & _ & H10 & H20 & _).
    rewrite H10, H20.
    destruct (r <? 2400), (u <=? 588), (u <=? 1176); reflexivity.
Qed.

Lemma flood_status_by_pulse_width_witness :
  0 <= echo env_up (n_echo (cursors boot)) <= 30000 /\
  floodStatus (globals (exec loop env_up boot)) = "CRITICAL FLOOD".
Proof.
  split; [split; discriminate |].
  apply (flood_status_by_pulse_width env_up boot). split; discriminate.
Defined.

Lemma leb_valid_pos (m1 m2 : positive) (e1 e2 : Z) :
  bounded Binary32.prec Binary32.emax m1 e1 = true ->
  bounded Binary32.prec Binary32.emax m2 e2 = true ->
  (Binary32.leb (S754_finite false m1 e1) (S754_finite false m2 e2) = true
   <-> units (S754_finite false m1 e1) <= units (S754_finite false m2 e2)).
Proof.
  intros H1 H2. unfold Binary32.leb, SFleb.
  rewrite (compare_valid_pos m1 m2 e1 e2 H1 H2).
  rewrite <- Z.compare_le_iff.
  destruct (units (S754_finite false m1 e1) ?= units (S754_finite false m2 e2));
    intuition congruence.
Qed.

(** X4.  Over the pulse widths of the timeout the computed distance is a
    valid positive binary32 number and never falls as the echo gets longer:
    the two roundings do not reorder readings. *)
Theorem distance_rises_with_pulse_width (u u' : Z) :
  1 <= u -> u <= u' -> u' <= 30000 ->
  Binary32.leb (distance_of_duration u) (distance_of_duration u') = true /\
  valid_binary Binary32.prec Binary32.emax (distance_of_duration u) = true /\
  Binary32.ltb (Binary32.of_Z 0) (distance_of_duration u) = true.
Proof.
  intros H1 H2 H3.
  pose proof (units_rise u u' H1 H2 H3) as Hrise.
  destruct (pulse_ok_inv u _ (pulse_in_range u ltac:(lia))) as (m & e & Hd & Hb & _).
  destruct (pulse_ok_inv u' _ (pulse_in_range u' ltac:(lia))) as (m' & e' & Hd' & Hb' & _).
  rewrite Hd, Hd' in *.
  split; [apply leb_valid_pos; assumption |].
  split; [exact Hb | reflexivity].
Qed.

Lemma distance_rises_with_pulse_width_witness :
  1 <= 470 /\ 470 <= 471 /\ 471 <= 30000 /\
  Binary32.leb (distance_of_duration 470) (distance_of_duration 471) = true.
Proof.
  split; [lia |]. split; [lia |]. split; [lia |].
  apply (distance_rises_with_pulse_width 470 471); lia.
Defined.

(** X5.  The value 400 returned when no echo comes is not a ceiling: an echo
    of 23530 us or more, still within the timeout, gives a distance above
    it, a shorter one a distance below it. *)
Theorem echo_beyond_no_echo_value (u : Z) :
  1 <= u <= 30000 ->
  (Binary32.ltb (distance_of_duration 0) (distance_of_duration u) = true
   <-> 23530 <= u) /\
  (Binary32.ltb (distance_of_duration u) (distance_of_duration 0) = true
   <-> u < 23530).
Proof.
  intros Hu.
  destruct (pulse_ok_inv u _ (pulse_in_range u Hu)) as (m & e & Hd & Hb & _ & _ & H400).
  change (distance_of_duration 0) with (S754_finite false 13107200 (-15)).
  change (Binary32.of_Z 400) with (S754_finite false 13107200 (-15)) in H400.
  assert (Hb400 : bounded Binary32.prec Binary32.emax 13107200 (-15) = true)
    by reflexivity.
  split.
  - rewrite H400. destruct (Z.leb_spec 23530 u); intuition (try discriminate; try lia).
  - split.
    + intros Hbelow. destruct (Z.leb_spec 23530 u) as [Hfar | Hnear]; [| exact Hnear].
      rewrite Hd in H400, Hbelow.
      apply (ltb_valid_pos _ _ _ _ Hb400 Hb) in H400.
      apply (ltb_valid_pos _ _ _ _ Hb Hb400) in Hbelow. lia.
    + intros Hnear.
      pose proof (units_rise u 23529 ltac:(lia) ltac:(lia) ltac:(lia)) as Hrise.
      rewrite Hd in Hrise |- *. apply (ltb_valid_pos _ _ _ _ Hb Hb400).
      apply Z.le_lt_trans with (units (distance_of_duration 23529)); [exact Hrise |].
      vm_compute. reflexivity.
Qed.

Lemma echo_beyond_no_echo_value_witness :
  1 <= 30000 <= 30000 /\
  Binary32.ltb (distance_of_duration 0) (distance_of_duration 30000) = true.
Proof.
  split; [lia |].
  apply (echo_beyond_no_echo_value 30000); lia.
Defined.

(** ** What a pass costs *)

Lemma total_delay_app (a b : list event) :
  total_delay_ms (a ++ b) = total_delay_ms a + total_delay_ms b.
Proof.
  induction a as [| e a IH]; [reflexivity |].
  destruct e; cbn [app total_delay_ms]; rewrite IH; lia.
Qed.

Lemma wait_events_measure (env : Env) (n : nat) :
  forall k,
    total_delay_ms (wait_events env k n) = 500 * Z.of_nat n /\
    count is_sample (wait_events env k n) = 0%nat.
Proof.
  induction n as [| n IH]; intros k; [split; reflexivity |].
  destruct (IH (S k)) as [Hms Hs].
  rewrite wait_events_snoc, total_delay_app, count_app, Hms, Hs.
  split; [cbn [total_delay_ms]; lia | reflexivity].
Qed.

Lemma verdict_measure (st st' : wl_status_t) :
  total_delay_ms [EvWiFiStatus st; verdict st'] = 0 /\
  count is_sample [EvWiFiStatus st; verdict st'] = 0%nat.
Proof. unfold verdict. destruct (wl_status_eq_dec st' WL_CONNECTED); split; reflexivity. Qed.


(** What lines 131-150 cost: one poll, no wait, at most one POST. *)
Lemma send_events_measure (env : Env) (s : Node) :
  count is_poll (send_events env s) = 1%nat /\
  count is_delay (send_events env s) = 0%nat /\
  total_delay_ms (send_events env s) = 0 /\
  count is_sample (send_events env s) = 0%nat /\
  (count is_POST (send_events env s) <= 1)%nat.
Proof.
  unfold send_events.
  destruct (wl_status_eq_dec (link env (n_link (cursors s))) WL_CONNECTED);
    cbn; repeat split; lia.
Qed.

Lemma loop_send_keeps_samples (env : Env) (s : Node) :
  n_adc (cursors (exec loop_send env s)) = n_adc (cursors s) /\
  n_echo (cursors (exec loop_send env s)) = n_echo (cursors s).
Proof.
  unfold exec. rewrite loop_send_run. cbn [snd].
  destruct (wl_status_eq_dec (link env (n_link (cursors s))) WL_CONNECTED);
    split; reflexivity.
Qed.

Lemma samples_before_report (env : Env) (w : Node) :
  n_adc (cursors (at_report_time env w)) = S (n_adc (cursors w)) /\
  n_echo (cursors (at_report_time env w)) = S (n_echo (cursors w)).
Proof. rewrite at_report_time_run. split; reflexivity. Qed.


(** ** Several passes *)

Lemma loop_trace (env : Env) (w : Node) :
  trace (exec loop env w) = trace w ++ events_since w (exec loop env w).
Proof.
  assert (H : exists evs, trace (exec loop env w) = trace w ++ evs).
  { rewrite loop_run, at_report_time_run. cbn [trace].
    eexists. rewrite <- !app_assoc. reflexivity. }
  destruct H as (evs & H). rewrite (events_since_app _ _ _ H). exact H.
Qed.

Lemma cycles_step (n : nat) (env : Env) (w : Node) :
  exec (cycles (S n)) env w = exec (cycles n) env (exec loop env w).
Proof.
  unfold exec. cbn [cycles]. unfold bind.
  destruct (loop env w) as [[] w1]. reflexivity.
Qed.

Lemma cycles_trace (env : Env) (n : nat) :
  forall w,
    trace (exec (cycles n) env w) = trace w ++ events_since w (exec (cycles n) env w).
Proof.
  induction n as [| n IH]; intros w.
  - change (exec (cycles 0) env w) with w. unfold events_since.
    rewrite skipn_all, app_nil_r. reflexivity.
  - rewrite cycles_step.
    assert (H : trace (exec (cycles n) env (exec loop env w))
                = trace w ++ (events_since w (exec loop env w)
                              ++ events_since (exec loop env w)
                                   (exec (cycles n) env (exec loop env w)))).
    { rewrite IH at 1. rewrite loop_trace at 1. rewrite <- app_assoc. reflexivity. }
    rewrite (events_since_app _ _ _ H). exact H.
Qed.

(** The calls of [n + 1] passes are those of the first and those of the
    other [n]. *)
Lemma cycles_events (env : Env) (n : nat) (w : Node) :
  events_since w (exec (cycles (S n)) env w) =
    events_since w (exec loop env w)
    ++ events_since (exec loop env w) (exec (cycles n) env (exec loop env w)).
Proof.
  rewrite cycles_step. apply events_since_app.
  rewrite cycles_trace at 1. rewrite loop_trace at 1.
  rewrite <- app_assoc. reflexivity.
Qed.

Lemma posts_app (a b : list event) : posts (a ++ b) = posts a ++ posts b.
Proof.
  induction a as [| e a IH]; [reflexivity |].
  destruct e; cbn [app posts]; rewrite IH; reflexivity.
Qed.

Lemma posts_none (tr : list event) : count is_POST tr = 0%nat -> posts tr = [].
Proof.
  unfold count. induction tr as [| e tr IH]; [reflexivity |].
  destruct e; cbn [filter is_POST posts List.length]; try exact IH. discriminate.
Qed.

Lemma posts_before_report (env : Env) (w : Node) :
  posts (events_since w (at_report_time env w)) = [].
Proof.
  apply posts_none.
  destruct (events_before_report env w) as (_ & Hnone & _).
  pose proof (count_POST_le_transport (events_since w (at_report_time env w))). lia.
Qed.

Lemma cursors_after_report (c : Cursors) :
  n_adc (next_post (next_heap (next_link c))) = n_adc c /\
  n_echo (next_post (next_heap (next_link c))) = n_echo c /\
  n_heap (next_post (next_heap (next_link c))) = S (n_heap c) /\
  n_post (next_post (next_heap (next_link c))) = S (n_post c).
Proof. repeat split. Qed.

(** A pass with the link up at line 131 and the client allocated. *)
Lemma reporting_pass (env : Env) (w : Node) :
  link env (n_link (cursors (at_report_time env w))) = WL_CONNECTED ->
  heap env (n_heap (cursors w)) = true ->
  let w' := exec loop env w in
  posts (events_since w w') =
    [(payload_of env (sampled (adc env (n_adc (cursors w))) (echo env (n_echo (cursors w)))),
      collector env (n_post (cursors w)))] /\
  n_adc (cursors w') = S (n_adc (cursors w)) /\
  n_echo (cursors w') = S (n_echo (cursors w)) /\
  n_heap (cursors w') = S (n_heap (cursors w)) /\
  n_post (cursors w') = S (n_post (cursors w)).
Proof.
  intros Hup Hheap w'.
  destruct (loop_events env w) as (Hevs & _ & Hcursors).
  destruct (events_before_report env w) as (_ & _ & Hsampled & HheapR & HpostR).
  destruct (samples_before_report env w) as (Hadc & Hecho).
  pose proof (posts_before_report env w) as Hquiet.
  fold w' in Hevs, Hcursors.
  set (R := at_report_time env w) in *.
  destruct (loop_send_up env R Hup) as (Hsend & Hnext).
  rewrite Hsampled, HpostR in Hsend.
  clearbody R w'.
  rewrite Hevs, Hsend, !posts_app, Hquiet, Hcursors, Hnext.
  destruct (cursors_after_report (cursors R)) as (Ha & He & Hh & Hp).
  rewrite Ha, He, Hh, Hp, Hadc, Hecho, HheapR, HpostR.
  repeat split.
Qed.

(** X7.  With the link up at every poll and every allocation succeeding,
    [n] passes make exactly [n] POSTs, in order, the i-th carrying the record
    of the i-th readings and nothing of an earlier pass, whatever codes the
    collector returned before: a failed POST is not sent again. *)
Theorem steady_reporting (env : Env) (n : nat) (w : Node) :
  (forall i, link env i = WL_CONNECTED) ->
  (forall i, heap env i = true) ->
  posts (events_since w (exec (cycles n) env w)) =
    map (fun i =>
           (payload_of env (sampled (adc env (n_adc (cursors w) + i))
                                    (echo env (n_echo (cursors w) + i))),
            collector env (n_post (cursors w) + i)))
        (seq 0 n).
Proof.
  intros Hlink Hheap. revert w.
  induction n as [| n IH]; intros w.
  - change (exec (cycles 0) env w) with w. unfold events_since.
    rewrite skipn_all. reflexivity.
  - destruct (reporting_pass env w (Hlink _) (Hheap _))
      as (Hposts & Hadc & Hecho & _ & Hpost).
    rewrite cycles_events, posts_app, Hposts, IH, Hadc, Hecho, Hpost.
    cbn [seq map app]. rewrite !Nat.add_0_r. f_equal.
    rewrite <- seq_shift, map_map. apply map_ext. intros i.
    rewrite !Nat.add_succ_r. reflexivity.
Qed.

Lemma steady_reporting_witness :
  (forall i, link env_up i = WL_CONNECTED) /\
  (forall i, heap env_up i = true) /\
  List.length (posts (events_since boot (exec (cycles 3) env_up boot))) = 3%nat.
Proof.
  split; [reflexivity |]. split; [reflexivity |].
  rewrite (steady_reporting env_up 3 boot); reflexivity.
Defined.

(** A pass during which no poll is answered connected. *)
Lemma offline_pass (env : Env) (w : Node) :
  (forall i, link env i <> WL_CONNECTED) ->
  let w' := exec loop env w in
  let evs := events_since w w' in
  posts evs = [] /\
  count is_transport evs = 0%nat /\
  count is_sample evs = 2%nat /\
  total_delay_ms evs = 14000 /\
  n_adc (cursors w') = S (n_adc (cursors w)) /\
  n_echo (cursors w') = S (n_echo (cursors w)).
Proof.
  intros Hdown w' evs.
  destruct (loop_events env w) as (Hevs & _ & Hcursors).
  destruct (events_before_report env w) as (Hpre & Hnone & _).
  destruct (samples_before_report env w) as (Hadc & Hecho).
  destruct (loop_send_keeps_samples env (at_report_time env w)) as (Hadc' & Hecho').
  destruct (loop_send_down env (at_report_time env w) (Hdown _)) as (Hsend & _).
  fold w' in Hevs, Hcursors. fold evs in Hevs.
  rewrite <- Hadc', <- Hecho', <- Hcursors in *.
  assert (Hwait : total_delay_ms (checkWiFi_events env (n_link (cursors w))) = 10000
                  /\ count is_sample (checkWiFi_events env (n_link (cursors w))) = 0%nat).
  { unfold checkWiFi_events.
    destruct (wl_status_eq_dec (link env (n_link (cursors w))) WL_CONNECTED) as [Hup | _];
      [exfalso; exact (Hdown _ Hup) |].
    rewrite (waits_never_up env 20) by (intros i _; apply Hdown).
    destruct (wait_events_measure env 20 (S (n_link (cursors w)))) as (Hms & Hs).
    destruct (verdict_measure (link env (S (S (n_link (cursors w))) + 20))
                (link env (S (S (n_link (cursors w))) + 20))) as (Hvms & Hvs).
    rewrite !total_delay_app, !count_app, Hms, Hs, Hvms, Hvs. split; reflexivity. }
  destruct Hwait as (Hwms & Hws).
  set (before := events_since w (at_report_time env w)) in *.
  set (st := link env (n_link (cursors (at_report_time env w)))) in *.
  clearbody w' evs before st.
  rewrite Hsend in Hevs.
  assert (Hquiet : count is_POST before = 0%nat)
    by (pose proof (count_POST_le_transport before); lia).
  rewrite Hevs, !posts_app, !count_app, !total_delay_app, Hnone.
  rewrite (posts_none before Hquiet).
  rewrite Hpre, !total_delay_app, !count_app, Hwms, Hws.
  repeat split; try reflexivity; assumption.
Qed.

(** X8.  With no poll ever answered connected, [n] passes still read both
    sensors [n] times each, touch no client and make no POST, and spend
    14 s each in [delay]: 20 waits of 500 ms and the 4 s sleep. *)
Theorem offline_passes (env : Env) (n : nat) (w : Node) :
  (forall i, link env i <> WL_CONNECTED) ->
  let w' := exec (cycles n) env w in
  let evs := events_since w w' in
  posts evs = [] /\
  count is_transport evs = 0%nat /\
  count is_sample evs = (2 * n)%nat /\
  total_delay_ms evs = 14000 * Z.of_nat n /\
  n_adc (cursors w') = (n_adc (cursors w) + n)%nat /\
  n_echo (cursors w') = (n_echo (cursors w) + n)%nat.
Proof.
  intros Hdown. revert w. induction n as [| n IH]; intros w w' evs.
  - subst evs w'. change (exec (cycles 0) env w) with w. unfold events_since.
    rewrite skipn_all, !Nat.add_0_r. repeat split.
  - destruct (offline_pass env w Hdown) as (Hp & Ht & Hs & Hms & Hadc & Hecho).
    destruct (IH (exec loop env w)) as (Hp' & Ht' & Hs' & Hms' & Hadc' & Hecho').
    subst evs w'. rewrite cycles_events, cycles_step.
    rewrite posts_app, !count_app, total_delay_app.
    rewrite Hp, Ht, Hs, Hms, Hp', Ht', Hs', Hms', Hadc', Hecho', Hadc, Hecho.
    repeat split; lia.
Qed.

Lemma offline_passes_witness :
  (forall i, link env_down i <> WL_CONNECTED) /\
  total_delay_ms (events_since boot (exec (cycles 2) env_down boot)) = 28000 /\
  posts (events_since boot (exec (cycles 2) env_down boot)) = [].
Proof.
  split; [intros i; discriminate |].
  destruct (offline_passes env_down 2 boot) as (Hp & _ & _ & Hms & _);
    [intros i; discriminate |].
  split; [exact Hms | exact Hp].
Defined.

Lemma at_report_time_forgets (env : Env) (w : Node) (g : Globals) :
  at_report_time env (with_globals g w) = at_report_time env w.
Proof. rewrite !at_report_time_run. reflexivity. Qed.

(** X9.  A pass reads none of the globals before writing it: started with
    any other values in the five globals it makes the same calls and leaves
    the same state, and so do [n >= 1] passes.  Nothing of a reading outlives
    the pass that took it. *)
Theorem pass_ignores_old_globals (env : Env) (w : Node) (g : Globals) (n : nat) :
  exec loop env (with_globals g w) = exec loop env w /\
  exec (cycles (S n)) env (with_globals g w) = exec (cycles (S n)) env w.
Proof.
  assert (Hone : exec loop env (with_globals g w) = exec loop env w).
  { rewrite !loop_run, at_report_time_forgets. reflexivity. }
  split; [exact Hone |]. rewrite !cycles_step, Hone. reflexivity.
Qed.

(** ** Severity *)

Lemma compare_cont_spec (m1 m2 : positive) :
  Pos.compare_cont Eq m1 m2 = (Z.pos m1 ?= Z.pos m2).
Proof. reflexivity. Qed.

(** Whatever is at most a value below [z] is below [z]. *)
Lemma leb_ltb_trans (x y z : spec_float) :
  Binary32.leb x y = true -> Binary32.ltb y z = true -> Binary32.ltb x z = true.
Proof.
  unfold Binary32.leb, Binary32.ltb, SFleb, SFltb.
  destruct x as [[] | [] | | [] mx ex], y as [[] | [] | | [] my ey],
           z as [[] | [] | | [] mz ez];
    cbn [SFcompare]; try congruence; rewrite ?compare_cont_spec;
    destruct (Z.compare_spec ex ey); try congruence;
    destruct (Z.compare_spec ey ez); try congruence;
    destruct (Z.compare_spec ex ez); try congruence; try lia;
    destruct (Z.compare_spec (Z.pos mx) (Z.pos my)); cbn [CompOpp]; try congruence;
    destruct (Z.compare_spec (Z.pos my) (Z.pos mz)); cbn [CompOpp]; try congruence;
    destruct (Z.compare_spec (Z.pos mx) (Z.pos mz)); cbn [CompOpp]; try congruence;
    lia.
Qed.

(** X10.  Neither ladder ever steps the wrong way: a lower reading (more
    rain) never gives a lower intensity, and a lower reading together with a
    shorter distance never gives a lower flood status. *)
Theorem severity_is_monotone (r1 r2 : Z) (d1 d2 : spec_float) :
  r1 <= r2 ->
  Binary32.leb d1 d2 = true ->
  (intensity_rank (rain_intensity_of r2) <= intensity_rank (rain_intensity_of r1))%nat /\
  (flood_rank (flood_status_of r2 d2) <= flood_rank (flood_status_of r1 d1))%nat.
Proof.
  intros Hr Hd. split.
  - rewrite !rain_intensity_of_ltb.
    destruct (Z.ltb_spec 3600 r1), (Z.ltb_spec 3000 r1), (Z.ltb_spec 2400 r1),
             (Z.ltb_spec 1800 r1); try lia;
    destruct (Z.ltb_spec 3600 r2), (Z.ltb_spec 3000 r2), (Z.ltb_spec 2400 r2),
             (Z.ltb_spec 1800 r2); try lia; cbn; lia.
  - pose proof (leb_ltb_trans d1 d2 (Binary32.of_Z 10) Hd) as H10.
    pose proof (leb_ltb_trans d1 d2 (Binary32.of_Z 20) Hd) as H20.
    pose proof (ltb_10_ltb_20 d1) as Hm1. pose proof (ltb_10_ltb_20 d2) as Hm2.
    unfold flood_status_of. revert H10 H20 Hm1 Hm2.
    generalize (Binary32.ltb d1 (Binary32.of_Z 10)), (Binary32.ltb d1 (Binary32.of_Z 20)),
               (Binary32.ltb d2 (Binary32.of_Z 10)), (Binary32.ltb d2 (Binary32.of_Z 20)).
    intros a1 b1 a2 b2 H10 H20 Hm1 Hm2.
    destruct (Z.ltb_spec r1 2400), (Z.ltb_spec r2 2400); try lia;
      destruct a1, b1, a2, b2; cbn; try lia;
      try (specialize (H10 eq_refl); discriminate);
      try (specialize (H20 eq_refl); discriminate);
      try (specialize (Hm1 eq_refl); discriminate);
      try (specialize (Hm2 eq_refl); discriminate).
Qed.

Lemma severity_is_monotone_witness :
  2000 <= 3700 /\
  Binary32.leb (Binary32.of_Z 5) (Binary32.of_Z 15) = true /\
  (flood_rank (flood_status_of 3700 (Binary32.of_Z 15))
   <= flood_rank (flood_status_of 2000 (Binary32.of_Z 5)))%nat.
Proof.
  split; [lia |]. split; [reflexivity |].
  apply (severity_is_monotone 2000 3700 (Binary32.of_Z 5) (Binary32.of_Z 15));
    [lia | reflexivity].
Defined.

(** ** The request body *)

Lemma labels_plain (r : Z) (d : spec_float) :
  json_plain (rain_intensity_of r) = true /\ json_plain (flood_status_of r d) = true.
Proof.
  split.
  - unfold rain_intensity_of.
    destruct (r >? 3600), (r >? 3000), (r >? 2400), (r >? 1800); reflexivity.
  - unfold flood_status_of.
    destruct (r <? 2400), (Binary32.ltb d (Binary32.of_Z 10)),
             (Binary32.ltb d (Binary32.of_Z 20)); reflexivity.
Qed.

(** X11.  The body is put together by plain concatenation, without
    escaping; in every pass the member names and the three string values
    (node id, intensity, flood status) are free of double quotes,
    backslashes and control characters, so none of them can end its JSON
    string early. *)
Theorem report_strings_need_no_escaping (env : Env) (w : Node) :
  let g := globals (exec loop env w) in
  payload_of env g = render_object (report_fields env g) /\
  Forall (fun kv =>
            json_plain (fst kv) = true /\
            match snd kv with
            | JString s => json_plain s = true
            | JNumber _ => True
            end)
         (report_fields env g).
Proof.
  intros g. split; [apply payload_is_flat_record |].
  assert (Hg : g = sampled (adc env (n_adc (cursors w))) (echo env (n_echo (cursors w))))
    by apply pass_globals.
  clearbody g. rewrite Hg. unfold report_fields, sampled.
  cbn [rainIntensity floodStatus rainAnalog distanceCM].
  destruct (labels_plain (adc env (n_adc (cursors w)))
              (distance_of_duration (long_of_unsigned (echo env (n_echo (cursors w))))))
    as (Hi & Hf).
  repeat (constructor; [split; [reflexivity | cbn [snd]; first [exact Hi | exact Hf | reflexivity | exact I]] |]).
  constructor.
Qed.


(** ** The radio and the clients *)

Lemma filter_radio_wait_events (env : Env) (n : nat) :
  forall k, filter is_radio_command (wait_events env k n) = [].
Proof.
  induction n as [| n IH]; intros k; [reflexivity |].
  cbn [wait_events filter is_radio_command]. apply IH.
Qed.

Lemma filter_radio_checkWiFi (env : Env) (k : nat) :
  filter is_radio_command (checkWiFi_events env k) =
    if wl_status_eq_dec (link env k) WL_CONNECTED then []
    else [EvWiFiDisconnect; EvWiFiBegin ssid password].
Proof.
  unfold checkWiFi_events.
  destruct (wl_status_eq_dec (link env k) WL_CONNECTED); [reflexivity |].
  rewrite !filter_app, filter_radio_wait_events. unfold verdict.
  destruct (wl_status_eq_dec _ WL_CONNECTED); reflexivity.
Qed.

Lemma filter_radio_send (env : Env) (s : Node) :
  filter is_radio_command (send_events env s) = [].
Proof.
  unfold send_events.
  destruct (wl_status_eq_dec _ WL_CONNECTED); reflexivity.
Qed.

(** X13.  A pass commands the radio only to reconnect, and at most once:
    nothing when the link is up as [checkWiFi] is entered, otherwise one
    disconnect followed by one begin with the sketch's credentials, however
    long the wait that follows. *)
Theorem one_reconnection_per_pass (env : Env) (w : Node) :
  filter is_radio_command (events_since w (exec loop env w)) =
    if wl_status_eq_dec (link env (n_link (cursors w))) WL_CONNECTED then []
    else [EvWiFiDisconnect; EvWiFiBegin ssid password].
Proof.
  destruct (loop_events env w) as (Hevs & _).
  destruct (events_before_report env w) as (Hpre & _).
  rewrite Hevs, Hpre, !filter_app, filter_radio_send, filter_radio_checkWiFi.
  cbn. rewrite app_nil_r. reflexivity.
Qed.






Lemma n_link_at_report_time (env : Env) (w : Node) :
  n_link (cursors (at_report_time env w))
  = (checkWiFi_polls env (n_link (cursors w)) + n_link (cursors w))%nat.
Proof. rewrite at_report_time_run. reflexivity. Qed.

(** X15.  The line printed by [checkWiFi] and the decision to report come
    from two different polls.  When the link is down for the 23 polls of a
    full [checkWiFi] and up at the next one, the pass prints
    Reconnection failed. and all the same posts its record. *)
Theorem report_after_failed_reconnection (env : Env) (w : Node) :
  let k := n_link (cursors w) in
  (forall i, (i < 23)%nat -> link env (k + i) <> WL_CONNECTED) ->
  link env (k + 23) = WL_CONNECTED ->
  heap env (n_heap (cursors w)) = true ->
  let evs := events_since w (exec loop env w) in
  let payload :=
    payload_of env (sampled (adc env (n_adc (cursors w))) (echo env (n_echo (cursors w)))) in
  let code := collector env (n_post (cursors w)) in
  (exists earlier,
     evs = earlier
           ++ [EvPrintln (SStr (LF ++ "Reconnection failed."));
               EvWiFiStatus WL_CONNECTED]
           ++ report_events payload code ++ [EvDelay 4000]) /\
  count is_delay evs = 21%nat /\
  posts evs = [(payload, code)].
Proof.
  intros k Hdown Hup Hheap evs payload code.
  assert (Hentry : link env k <> WL_CONNECTED).
  { rewrite <- (Nat.add_0_r k). apply Hdown. lia. }
  assert (Hwaits : waits env (S k) 20 = 20%nat).
  { apply waits_never_up. intros i Hi.
    replace (S k + i)%nat with (k + S i)%nat by lia. apply Hdown. lia. }
  assert (Hlast : link env (S (S k) + 20) <> WL_CONNECTED).
  { replace (S (S k) + 20)%nat with (k + 22)%nat by lia. apply Hdown. lia. }
  assert (Hcheck : checkWiFi_events env k =
            ([EvWiFiStatus (link env k); EvPrintln (SStr "WiFi lost. Reconnecting...");
              EvWiFiDisconnect; EvWiFiBegin ssid password]
             ++ wait_events env (S k) 20
             ++ [EvWiFiStatus (link env (S (S k) + 20))])
            ++ [EvPrintln (SStr (LF ++ "Reconnection failed."))]).
  { unfold checkWiFi_events, verdict.
    destruct (wl_status_eq_dec (link env k) WL_CONNECTED); [contradiction |].
    rewrite Hwaits.
    destruct (wl_status_eq_dec (link env (S (S k) + 20)) WL_CONNECTED);
      [contradiction |].
    rewrite <- !app_assoc. reflexivity. }
  assert (Hreport : link env (n_link (cursors (at_report_time env w))) = WL_CONNECTED).
  { rewrite n_link_at_report_time. fold k. unfold checkWiFi_polls.
    destruct (wl_status_eq_dec (link env k) WL_CONNECTED); [contradiction |].
    rewrite Hwaits. replace (3 + 20 + k)%nat with (k + 23)%nat by lia. exact Hup. }
  destruct (reporting_pass env w Hreport Hheap) as (Hposts & _).
  destruct (loop_events env w) as (Hevs & _).
  destruct (events_before_report env w) as (Hpre & _ & Hsampled & HheapR & HpostR).
  destruct (send_events_measure env (at_report_time env w)) as (_ & Hsd & _).
  destruct (loop_send_up env (at_report_time env w) Hreport) as (Hsend & _).
  rewrite Hsampled, HpostR in Hsend.
  fold k in Hpre. fold evs in Hevs, Hposts. fold payload code in Hsend, Hposts.
  destruct (count_wait_events env 20 (S k)) as (Hwd & _).
  set (sent := send_events env (at_report_time env w)) in *.
  set (before := events_since w (at_report_time env w)) in *.
  clearbody evs sent before payload code.
  rewrite Hcheck in Hpre. subst before evs sent.
  split; [| split; [| exact Hposts]].
  - exists ([EvAnalogRead RAIN_AO (adc env (n_adc (cursors w)))]
            ++ ranging_events (echo env (n_echo (cursors w)))
            ++ summary_events
                 (sampled (adc env (n_adc (cursors w))) (echo env (n_echo (cursors w))))
            ++ [EvWiFiStatus (link env k); EvPrintln (SStr "WiFi lost. Reconnecting...");
                EvWiFiDisconnect; EvWiFiBegin ssid password]
            ++ wait_events env (S k) 20
            ++ [EvWiFiStatus (link env (S (S k) + 20))]).
    rewrite <- !app_assoc. reflexivity.
  - rewrite !count_app, Hwd. reflexivity.
Qed.

Lemma report_after_failed_reconnection_witness :
  link env_late (n_link (cursors boot) + 23) = WL_CONNECTED /\
  heap env_late (n_heap (cursors boot)) = true /\
  List.length (posts (events_since boot (exec loop env_late boot))) = 1%nat.
Proof.
  split; [reflexivity |]. split; [reflexivity |].
  destruct (report_after_failed_reconnection env_late boot) as (_ & _ & Hposts).
  - intros i Hi. change (link env_late (n_link (cursors boot) + i))
      with (if (i <? 23)%nat then WL_DISCONNECTED else WL_CONNECTED).
    destruct (Nat.ltb_spec i 23); [discriminate | lia].
  - reflexivity.
  - reflexivity.
  - rewrite Hposts. reflexivity.
Defined.
